(** * Redshift-ResNet: the SDSS checkpoint store and its content hasher

    A shallow embedding of [preprocessing/sdss/sdss_utils.py] ([get_hash]) and
    of [preprocessing/sdss/checkpoint_objects.py] ([CheckPointer]), with the
    properties of the checkpoint store stated and proved over it.

    Conventions of the embedding:
    - a Python [str] is a [string] whose characters are the code points
      0..255; [encode_utf8] turns it into bytes the way [str.encode('utf-8')]
      does on that range;
    - a Python [dict] is an association list in insertion order ([dict_set]
      is [d[k] = v]); a Python [set] of strings is a [gset string];
    - the files of one checkpoint identity are a record [Disk]; the instance
      attributes are a record [CheckPointer]; methods run in a state monad
      with exceptions, so a raised exception comes with the state reached at
      the [raise];
    - [pickle] and [json] round-trip the values written here (dictionaries
      with string keys, lists of strings, dataclass instances), so a file
      holds the value that was dumped into it;
    - [time.time()] reads the field [clock] of the state; the modification
      time of a file is the file system's, which stamps each write with a
      reading of its own ([stamps]), not one the program takes;
    - files opened in text mode are read with universal newlines; the
      platform is POSIX (a newline is written as it is, file names are
      case-sensitive, at most 255 bytes long) and the locale's encoding
      round-trips the strings written. *)

From Stdlib Require Import ZArith List Ascii String Lia DecimalString.
From stdpp Require Import gmap strings list fin_maps.

Local Open Scope string_scope.

(** ** [hashlib.sha1] (FIPS 180-4), on bytes given as [Z] in 0..255 *)

Module Hashlib.

Local Open Scope Z_scope.

Definition mask32 (x : Z) : Z := Z.land x 4294967295.

Definition add32 (x y : Z) : Z := mask32 (x + y).

Definition rotl32 (n : Z) (x : Z) : Z :=
  mask32 (Z.lor (Z.shiftl x n) (Z.shiftr x (32 - n))).

Definition not32 (x : Z) : Z := Z.lxor x 4294967295.

(** Message padding: a 1 bit, zeros up to 56 mod 64, the bit length on
    eight bytes, big-endian. *)
Definition be_bytes (n : nat) (x : Z) : list Z :=
  map (fun i => Z.land (Z.shiftr x (8 * Z.of_nat i)) 255) (rev (seq 0 n)).

Definition pad (msg : list Z) : list Z :=
  let len := Z.of_nat (length msg) in
  let zeros := Z.to_nat ((55 - len) mod 64) in
  msg ++ 128 :: repeat 0 zeros ++ be_bytes 8 (8 * len).

Fixpoint be_word (bs : list Z) (acc : Z) : Z :=
  match bs with
  | [] => acc
  | b :: bs' => be_word bs' (Z.lor (Z.shiftl acc 8) b)
  end.

(** The big-endian 32-bit words of a byte list. *)
Fixpoint words (n : nat) (bs : list Z) : list Z :=
  match n with
  | O => []
  | S n' => be_word (firstn 4 bs) 0 :: words n' (skipn 4 bs)
  end.

(** Message schedule; [w] holds the words computed so far, latest first. *)
Fixpoint schedule (n : nat) (w : list Z) : list Z :=
  match n with
  | O => w
  | S n' =>
      let x := Z.lxor (Z.lxor (nth 2 w 0) (nth 7 w 0))
                      (Z.lxor (nth 13 w 0) (nth 15 w 0)) in
      schedule n' (rotl32 1 x :: w)
  end.

Definition f_k (t : nat) (b c d : Z) : Z * Z :=
  if (t <? 20)%nat then
    (Z.lor (Z.land b c) (Z.land (not32 b) d), 1518500249)
  else if (t <? 40)%nat then
    (Z.lxor (Z.lxor b c) d, 1859775393)
  else if (t <? 60)%nat then
    (Z.lor (Z.lor (Z.land b c) (Z.land b d)) (Z.land c d), 2400959708)
  else
    (Z.lxor (Z.lxor b c) d, 3395469782).

Definition hstate : Type := Z * Z * Z * Z * Z.

Fixpoint rounds (t : nat) (ws : list Z) (h : hstate) : hstate :=
  match ws with
  | [] => h
  | w :: ws' =>
      let '(a, b, c, d, e) := h in
      let '(f, k) := f_k t b c d in
      let temp := add32 (add32 (add32 (add32 (rotl32 5 a) f) e) k) w in
      rounds (S t) ws' (temp, a, rotl32 30 b, c, d)
  end.

Definition compress (h : hstate) (block : list Z) : hstate :=
  let ws := rev (schedule 64 (rev (words 16 block))) in
  let '(a, b, c, d, e) := rounds 0 ws h in
  let '(h0, h1, h2, h3, h4) := h in
  (add32 h0 a, add32 h1 b, add32 h2 c, add32 h3 d, add32 h4 e).

Fixpoint blocks (n : nat) (bs : list Z) (h : hstate) : hstate :=
  match n with
  | O => h
  | S n' => blocks n' (skipn 64 bs) (compress h (firstn 64 bs))
  end.

Definition init : hstate :=
  (1732584193, 4023233417, 2562383102, 271733878, 3285377520).

Definition sha1 (msg : list Z) : list Z :=
  let p := pad msg in
  let '(h0, h1, h2, h3, h4) := blocks (length p / 64) p init in
  be_bytes 4 h0 ++ be_bytes 4 h1 ++ be_bytes 4 h2 ++ be_bytes 4 h3
    ++ be_bytes 4 h4.

Definition hex_digit (x : Z) : ascii :=
  ascii_of_nat (Z.to_nat (if x <? 10 then 48 + x else 87 + x)).

Fixpoint hex (bs : list Z) : string :=
  match bs with
  | [] => EmptyString
  | b :: bs' =>
      String (hex_digit (Z.shiftr b 4))
        (String (hex_digit (Z.land b 15)) (hex bs'))
  end.

(** [sha1(data).hexdigest()] *)
Definition hexdigest (msg : list Z) : string := hex (sha1 msg).

End Hashlib.

(** ** Python string operations used by the store *)

(** [s.encode('utf-8')] for code points below 256: one byte below 128, two
    bytes from 128 on. *)
Definition encode_char (c : ascii) : list Z :=
  let n := Z.of_nat (nat_of_ascii c) in
  if (n <? 128)%Z then [n]
  else [Z.lor 192 (Z.shiftr n 6); Z.lor 128 (Z.land n 63)].

Fixpoint encode_utf8 (s : string) : list Z :=
  match s with
  | EmptyString => []
  | String c s' => encode_char c ++ encode_utf8 s'
  end.

(** [sep.join(iterable)] *)
Fixpoint join (sep : string) (l : list string) : string :=
  match l with
  | [] => ""
  | [x] => x
  | x :: rest => x ++ sep ++ join sep rest
  end.

(** ** [sdss_utils.get_hash] *)

Definition get_hash (iterable : list string) : string :=
  let combined_str := join "" iterable in
  Hashlib.hexdigest (encode_utf8 combined_str).

(** The content hasher in the words of its specification: the strings
    concatenated in order, no separator, UTF-8 encoded, SHA-1, in hex. *)
Definition concat_in_order (l : list string) : string :=
  fold_right String.append "" l.


(** ** Python containers *)

(** [str.split(sep)] for a one-character separator: every occurrence of the
    separator cuts, so the result has one more item than there are
    separators ([''.split(',')] is [['']]). *)
Fixpoint split (sep : ascii) (s : string) : list string :=
  match s with
  | EmptyString => [""]
  | String c s' =>
      if Ascii.eqb c sep then "" :: split sep s'
      else match split sep s' with
           | [] => [String c ""]
           | w :: ws => String c w :: ws
           end
  end.

(** Reading in text mode: a carriage return, alone or before a line feed,
    comes back as one line feed. *)
Fixpoint universal_newlines (s : string) : string :=
  match s with
  | EmptyString => EmptyString
  | String c s' =>
      if Ascii.eqb c "013" then
        match s' with
        | String "010" _ => universal_newlines s'
        | _ => String "010" (universal_newlines s')
        end
      else String c (universal_newlines s')
  end.

(** Whether a string holds a carriage return. *)
Fixpoint has_cr (s : string) : bool :=
  match s with
  | EmptyString => false
  | String c s' => if Ascii.eqb c "013" then true else has_cr s'
  end.

(** Whether a string holds the separator of the keys file. *)
Fixpoint has_comma (s : string) : bool :=
  match s with
  | EmptyString => false
  | String c s' => if Ascii.eqb c "," then true else has_comma s'
  end.

(** The text the keys file holds once the keys [ks] have been appended:
    each key followed by a comma. *)
Definition ledger_of (ks : list string) : string :=
  concat_in_order (map (fun k => k ++ ",") ks).

(** A sequence of keys without its repeats: each key where it comes
    first, as the keys of a dictionary filled in that order. *)
Fixpoint first_occurrences (l : list string) : list string :=
  match l with
  | [] => []
  | x :: rest => x :: filter (fun y => y <> x) (first_occurrences rest)
  end.

Section Dict.

Context {V : Type}.

(** [d[k] = v]: an existing key keeps its place, a new key goes last. *)
Fixpoint dict_set (d : list (string * V)) (k : string) (v : V)
  : list (string * V) :=
  match d with
  | [] => [(k, v)]
  | (k', v') :: d' =>
      if String.eqb k k' then (k, v) :: d' else (k', v') :: dict_set d' k v
  end.

(** [d[k]], [None] standing for the [KeyError]. *)
Fixpoint dict_get (d : list (string * V)) (k : string) : option V :=
  match d with
  | [] => None
  | (k', v') :: d' => if String.eqb k k' then Some v' else dict_get d' k
  end.

(** [d.keys()] *)
Definition dict_keys (d : list (string * V)) : list string := map fst d.

End Dict.

(** ** File names

    [pkl_dir / checkpoint_file] is the entry of [pkl_dir] called
    [checkpoint_file] when that string is a file name: not empty, not [.]
    or [..], without a slash or a null character, at most 255 bytes long.
    Any other string is a path that leads elsewhere in the file system or
    back to a directory; [return_objects_for] is modelled on file names. *)
Definition is_file_name (name : string) : bool :=
  negb (String.eqb name "") && negb (String.eqb name ".")
  && negb (String.eqb name "..")
  && forallb (fun c => negb (Ascii.eqb c "/") && negb (Ascii.eqb c "000"))
       (list_ascii_of_string name)
  && (length (encode_utf8 name) <=? 255)%nat.

Record file_name : Type := {
  name_of : string;
  name_is_file_name : is_file_name name_of = true
}.

(** ** The object shape

    The store is generic over [metaclass]: a class whose instances expose a
    string [key] and that can be called on keyword arguments.  [construct]
    is the call of [metaclass] on them; [None] stands for the [TypeError] a
    dataclass constructor raises on missing or unexpected keywords. *)
Class MetaClass (Obj Kw : Type) := {
  key : Obj -> string;
  construct : Kw -> option Obj
}.

(** What a caller may put in [meta_objects]: a [dict] of keyword arguments,
    an instance of [metaclass], or any other value. *)
Inductive candidate (Obj Kw : Type) : Type :=
| Kwargs (kwargs : Kw)
| Instance (obj : Obj)
| Other.

Arguments Kwargs {Obj Kw} kwargs.
Arguments Instance {Obj Kw} obj.
Arguments Other {Obj Kw}.

(** ** State: disk, instance, clock *)

(** Seconds since the epoch, as [time.time()] and [os.path.getmtime] give
    them; the store only records and compares these values. *)
Definition Time : Type := Z.

Inductive exn : Type :=
| ValueError
| TypeError
| KeyError
| FileNotFoundError
| UnpicklingError.

Inductive result (A : Type) : Type :=
| Return (a : A)
| Raise (e : exn).

Arguments Return {A} a.
Arguments Raise {A} e.

Section Store.

Context {Obj Kw : Type} `{MetaClass Obj Kw}.

(** The files of one [guid] under [ckpt_dir], once [__init__] has made the
    directories:
    - [objs_in_disk]: [<guid>.txt], its text and modification time;
    - [metadata_file]: [<guid>/metadata.json], the JSON object it holds;
    - [pkl_files]: the pickles of [<guid>/], by file name;
    - [stamps]: what the file system's clock reads at the coming writes of
      [<guid>.txt], the next one first; a write sets the modification time
      to the first reading and leaves the later ones. *)
Record Disk : Type := {
  objs_in_disk : option (string * Time);
  metadata_file : option (list (string * list string));
  pkl_files : gmap string (list (string * Obj));
  stamps : nat -> Time
}.

(** The attributes of a [CheckPointer] that change or decide behaviour. *)
Record CheckPointer : Type := {
  obj_set : gset string;
  last_modified : Time;
  max_objects : Z
}.

Record State : Type := {
  disk : Disk;
  self : CheckPointer;
  clock : Time
}.

Definition M (A : Type) : Type := State -> result A * State.

Definition ret {A} (a : A) : M A := fun s => (Return a, s).

Definition bind {A B} (m : M A) (f : A -> M B) : M B :=
  fun s =>
    match m s with
    | (Return a, s') => f a s'
    | (Raise e, s') => (Raise e, s')
    end.

Definition raise {A} (e : exn) : M A := fun s => (Raise e, s).

Definition gets {A} (f : State -> A) : M A := fun s => (Return (f s), s).

Definition modify (f : State -> State) : M unit := fun s => (Return tt, f s).

End Store.

Arguments Disk Obj : clear implicits.
Arguments CheckPointer : clear implicits.
Arguments State Obj : clear implicits.
Arguments M Obj A : clear implicits.

Notation "x <- m ;; k" := (bind m (fun x => k))
  (at level 100, m at next level, right associativity,
   format "'[v' x  <-  m  ;; '/' k ']'").
Notation "m ;;; k" := (bind m (fun _ => k))
  (at level 100, right associativity, format "'[v' m  ;;; '/' k ']'").

(** ** [CheckPointer] *)

Section Methods.

Context {Obj Kw : Type} `{MetaClass Obj Kw}.

(** *** File and clock primitives *)

(** [time.time()] *)
Definition time_time : M Obj Time := gets clock.

(** [pickle.dump(objects, open(pkl_dir / filename, 'wb'))]: creates the
    file or truncates and rewrites it. *)
Definition pkl_dump (filename : string) (objects : list (string * Obj))
  : M Obj unit :=
  modify (fun s =>
    {| disk := {| objs_in_disk := objs_in_disk (disk s);
                  metadata_file := metadata_file (disk s);
                  pkl_files := <[filename := objects]> (pkl_files (disk s));
                  stamps := stamps (disk s) |};
       self := self s;
       clock := clock s |}).

(** [json.dump(metadata, open(metadata_file, 'w'))] *)
Definition json_dump (metadata : list (string * list string)) : M Obj unit :=
  modify (fun s =>
    {| disk := {| objs_in_disk := objs_in_disk (disk s);
                  metadata_file := Some metadata;
                  pkl_files := pkl_files (disk s);
                  stamps := stamps (disk s) |};
       self := self s;
       clock := clock s |}).

(** [open(objs_in_disk, 'a+').write(text)]: creates the file when it is
    missing, appends otherwise; the file's modification time becomes what
    the file system's clock reads at the write. *)
Definition append_objs_in_disk (text : string) : M Obj unit :=
  modify (fun s =>
    let old := match objs_in_disk (disk s) with
               | Some (content, _) => content
               | None => ""
               end in
    {| disk := {| objs_in_disk := Some (old ++ text, stamps (disk s) 0%nat);
                  metadata_file := metadata_file (disk s);
                  pkl_files := pkl_files (disk s);
                  stamps := fun n => stamps (disk s) (S n) |};
       self := self s;
       clock := clock s |}).

Definition set_obj_set (X : gset string) : M Obj unit :=
  modify (fun s =>
    {| disk := disk s;
       self := {| obj_set := X;
                  last_modified := last_modified (self s);
                  max_objects := max_objects (self s) |};
       clock := clock s |}).

Definition set_last_modified (t : Time) : M Obj unit :=
  modify (fun s =>
    {| disk := disk s;
       self := {| obj_set := obj_set (self s);
                  last_modified := t;
                  max_objects := max_objects (self s) |};
       clock := clock s |}).

(** *** [_save_pkl] *)

Definition _save_pkl (objects_to_save : list (string * Obj)) : M Obj unit :=
  let filename := get_hash (dict_keys objects_to_save) ++ ".pkl" in
  pkl_dump filename objects_to_save ;;;
  on_disk <- gets (fun s => metadata_file (disk s)) ;;
  let metadata := match on_disk with
                  | Some loaded => loaded
                  | None => []
                  end in
  let metadata := dict_set metadata filename (dict_keys objects_to_save) in
  json_dump metadata.

(** *** [_update_objects_on_disk] *)

Definition _update_objects_on_disk (keys_to_save : list string) : M Obj unit :=
  append_objs_in_disk (join "," keys_to_save) ;;;
  append_objs_in_disk "," ;;;
  seen <- gets (fun s => obj_set (self s)) ;;
  set_obj_set (seen ∪ list_to_set keys_to_save).

(** *** [save_objects] *)

(** Lines 114-120: a [dict] is passed to [metaclass]; what is not an
    instance of [metaclass] afterwards raises [TypeError]. *)
Definition as_metaclass (obj_or_kwargs : candidate Obj Kw) : M Obj Obj :=
  match obj_or_kwargs with
  | Kwargs kwargs =>
      match construct kwargs with
      | Some current_object => ret current_object
      | None => raise TypeError
      end
  | Instance current_object => ret current_object
  | Other => raise TypeError
  end.

(** The [for] loop of [save_objects], with its two local accumulators. *)
Fixpoint save_loop (meta_objects : list (candidate Obj Kw))
    (keys_to_save : list string) (objects_to_save : list (string * Obj))
  : M Obj (list string * list (string * Obj)) :=
  match meta_objects with
  | [] => ret (keys_to_save, objects_to_save)
  | obj_or_kwargs :: rest =>
      current_object <- as_metaclass obj_or_kwargs ;;
      seen <- gets (fun s => obj_set (self s)) ;;
      if decide (key current_object ∈ seen) then
        save_loop rest keys_to_save objects_to_save
      else
        save_loop rest (keys_to_save ++ [key current_object])
          (dict_set objects_to_save (key current_object) current_object)
  end.

Definition save_objects (meta_objects : option (list (candidate Obj Kw)))
  : M Obj unit :=
  match meta_objects with
  | None => ret tt
  | Some meta_objects =>
      limit <- gets (fun s => max_objects (self s)) ;;
      if (Z.of_nat (length meta_objects) >? limit)%Z then raise ValueError
      else
        saved <- save_loop meta_objects [] [] ;;
        let '(keys_to_save, objects_to_save) := saved in
        if (0 <? length objects_to_save)%nat then
          _save_pkl objects_to_save ;;;
          _update_objects_on_disk keys_to_save ;;;
          now <- time_time ;;
          set_last_modified now
        else ret tt
  end.

(** *** [__init__]

    [d] is what the checkpoint directory holds for this [guid] when the
    constructor runs and [now] the time of the call.  With [overwrite] the
    pickle directory and the keys file are removed first.  The keys file
    is read in text mode. *)
Definition __init__ (overwrite : bool)
    (meta_objects : option (list (candidate Obj Kw))) (max_objects : Z)
    (d : Disk Obj) (now : Time) : result unit * State Obj :=
  let d :=
    if overwrite then
      {| objs_in_disk := None; metadata_file := None; pkl_files := ∅;
         stamps := stamps d |}
    else d in
  let self :=
    match objs_in_disk d with
    | Some (content, mtime) =>
        {| obj_set := list_to_set (split "," (universal_newlines content));
           last_modified := mtime;
           max_objects := max_objects |}
    | None =>
        {| obj_set := ∅; last_modified := now; max_objects := max_objects |}
    end in
  save_objects meta_objects {| disk := d; self := self; clock := now |}.

(** *** [get_specific_object] *)

(** The scan of [meta_dict.items()]: the last entry listing [obj_key]. *)
Definition find_tgt_file (obj_key : string)
    (meta_dict : list (string * list string)) : option string :=
  fold_left
    (fun tgt_file entry =>
       let '(key, value) := entry in
       let value_set : gset string := list_to_set value in
       if decide (obj_key ∈ value_set) then Some key else tgt_file)
    meta_dict None.

Definition get_specific_object (obj_key : string) : M Obj Obj :=
  on_disk <- gets (fun s => metadata_file (disk s)) ;;
  match on_disk with
  | None => raise KeyError
  | Some meta_dict =>
      match find_tgt_file obj_key meta_dict with
      | None => raise KeyError
      | Some tgt_file =>
          pkls <- gets (fun s => pkl_files (disk s)) ;;
          match pkls !! tgt_file with
          | None => raise FileNotFoundError
          | Some objects_dict =>
              match dict_get objects_dict obj_key with
              | Some found => ret found
              | None => raise KeyError
              end
          end
      end
  end.

(** *** [return_all_objects_info] and [return_objects_for] *)

Definition return_all_objects_info : M Obj (list (string * list string)) :=
  on_disk <- gets (fun s => metadata_file (disk s)) ;;
  match on_disk with
  | None => ret []
  | Some loaded => ret loaded
  end.

(** [pkl_dir] holds the pickles and [metadata.json].  The entry a file
    name leads to is looked up, opened and handed to [pickle.load], which
    gives the dictionary of a pickle and raises [UnpicklingError] on the
    JSON text of the index, whose first character is a brace. *)
Definition return_objects_for (checkpoint_file : file_name)
  : M Obj (list (string * Obj)) :=
  d <- gets disk ;;
  if String.eqb (name_of checkpoint_file) "metadata.json" then
    match metadata_file d with
    | None => raise FileNotFoundError
    | Some _ => raise UnpicklingError
    end
  else
    match pkl_files d !! name_of checkpoint_file with
    | None => raise FileNotFoundError
    | Some objects => ret objects
    end.

End Methods.

(** ** Runs of the store, and what the properties are stated with *)

Section Runs.

Context {Obj Kw : Type} `{MetaClass Obj Kw}.

(** The instance a candidate stands for, if any (lines 114-120). *)
Definition to_object (c : candidate Obj Kw) : option Obj :=
  match c with
  | Kwargs kwargs => construct kwargs
  | Instance obj => Some obj
  | Other => None
  end.

(** The objects of a batch whose key is not in [seen]. *)
Definition accepted (seen : gset string) (objs : list Obj) : list Obj :=
  filter (fun o => key o ∉ seen) objs.

(** [objects_to_save] after the loop has taken [objs] in turn. *)
Definition store_all (objs : list Obj) (d : list (string * Obj))
  : list (string * Obj) :=
  fold_left (fun d o => dict_set d (key o) o) objs d.

(** The name [_save_pkl] gives the pickle of [objects_to_save]. *)
Definition blob_name (objects_to_save : list (string * Obj)) : string :=
  get_hash (dict_keys objects_to_save) ++ ".pkl".

(** The index document, [{}] while [metadata.json] is missing. *)
Definition index (s : State Obj) : list (string * list string) :=
  match metadata_file (disk s) with
  | Some loaded => loaded
  | None => []
  end.

(** All keys the index lists: the union of its values. *)
Definition index_keys (s : State Obj) : gset string :=
  list_to_set (concat (map snd (index s))).

(** The text of the keys file, [""] while it is missing. *)
Definition ledger_text (s : State Obj) : string :=
  match objs_in_disk (disk s) with
  | Some (content, _) => content
  | None => ""
  end.

(** The state a save leaves when it has [keys_to_save] and a non-empty
    [objects_to_save] to persist. *)
Definition commit (keys_to_save : list string)
    (objects_to_save : list (string * Obj)) (s : State Obj) : State Obj :=
  {| disk :=
       {| objs_in_disk :=
            Some ((ledger_text s ++ join "," keys_to_save) ++ ",",
                  stamps (disk s) 1%nat);
          metadata_file :=
            Some (dict_set (index s) (blob_name objects_to_save)
                    (dict_keys objects_to_save));
          pkl_files :=
            <[blob_name objects_to_save := objects_to_save]>
              (pkl_files (disk s));
          stamps := fun n => stamps (disk s) (S (S n)) |};
     self :=
       {| obj_set := obj_set (self s) ∪ list_to_set keys_to_save;
          last_modified := clock s;
          max_objects := max_objects (self s) |};
     clock := clock s |}.

(** Time passes between two calls: the clock is the environment's. *)
Definition at_time (t : Time) (s : State Obj) : State Obj :=
  {| disk := disk s; self := self s; clock := t |}.

(** A sequence of [save_objects] calls, each at its own time; it stops at
    the first call that raises. *)
Fixpoint run_saves (calls : list (Time * list (candidate Obj Kw)))
  : M Obj unit :=
  match calls with
  | [] => ret tt
  | (t, meta_objects) :: rest =>
      modify (at_time t) ;;;
      save_objects (Some meta_objects) ;;;
      run_saves rest
  end.

(** A sequence of [save_objects] calls that goes on after a call that
    raises, as a caller that catches the exception does: the state a call
    leaves, whatever it returns or raises, is where the next one starts. *)
Fixpoint run_all_saves (calls : list (Time * list (candidate Obj Kw)))
    (s : State Obj) : State Obj :=
  match calls with
  | [] => s
  | (t, meta_objects) :: rest =>
      run_all_saves rest (snd (save_objects (Some meta_objects) (at_time t s)))
  end.

(** The pickle a [save_objects] call writes, if it writes one. *)
Definition blob_written (meta_objects : list (candidate Obj Kw))
    (s : State Obj) : option string :=
  if (Z.of_nat (length meta_objects) >? max_objects (self s))%Z then None
  else
    match fst (save_loop meta_objects [] [] s) with
    | Return (_, objects_to_save) =>
        if (0 <? length objects_to_save)%nat
        then Some (blob_name objects_to_save) else None
    | Raise _ => None
    end.

(** No call of the run writes a pickle under the name [name]. *)
Fixpoint never_writes (name : string)
    (calls : list (Time * list (candidate Obj Kw))) (s : State Obj) : Prop :=
  match calls with
  | [] => True
  | (t, meta_objects) :: rest =>
      blob_written meta_objects (at_time t s) ≠ Some name
      ∧ never_writes name rest
          (snd (save_objects (Some meta_objects) (at_time t s)))
  end.

(** No call of the run writes a pickle under a name the index has. *)
Fixpoint fresh_names (calls : list (Time * list (candidate Obj Kw)))
    (s : State Obj) : Prop :=
  match calls with
  | [] => True
  | (t, meta_objects) :: rest =>
      (forall name, blob_written meta_objects (at_time t s) = Some name ->
                    name ∉ dict_keys (index s))
      ∧ fresh_names rest
          (snd (save_objects (Some meta_objects) (at_time t s)))
  end.

(** The states the store keeps itself in:
    - the index is a dictionary (no name twice);
    - each index entry names a pickle holding exactly the listed keys,
      each once, every object under its own key;
    - every pickle is named by the index;
    - no key is listed by two entries;
    - every key of the index is in [obj_set]. *)
Record consistent (s : State Obj) : Prop := {
  index_names_nodup : NoDup (dict_keys (index s));
  index_describes_blobs :
    forall name keys, (name, keys) ∈ index s ->
      exists d, pkl_files (disk s) !! name = Some d
                /\ dict_keys d = keys /\ NoDup keys
                /\ (forall k o, (k, o) ∈ d -> key o = k);
  blobs_in_index :
    forall name, is_Some (pkl_files (disk s) !! name) ->
                 name ∈ dict_keys (index s);
  index_keys_once :
    forall k n1 ks1 n2 ks2,
      (n1, ks1) ∈ index s -> (n2, ks2) ∈ index s ->
      k ∈ ks1 -> k ∈ ks2 -> n1 = n2;
  index_in_ledger : index_keys s ⊆ obj_set (self s)
}.

(** The keys file holds the keys of [obj_set], in the order they were
    appended; it is missing only while nothing was appended. *)
Definition ledger_tracks (s : State Obj) : Prop :=
  exists ks,
    ledger_text s = ledger_of ks
    /\ list_to_set ks = obj_set (self s)
    /\ (objs_in_disk (disk s) = None -> ks = []).

(** The index tells what the pickles hold: each entry names a pickle whose
    keys are the listed ones. *)
Definition blobs_match_index (s : State Obj) : Prop :=
  forall name keys, (name, keys) ∈ index s ->
    exists d, pkl_files (disk s) !! name = Some d /\ dict_keys d = keys.

End Runs.

(** ** The shape the pipeline checkpoints: [RedShiftCheckPointObject] *)

Module RedShift.

(** Field values; the store never looks inside them. *)
Inductive value : Type :=
| Str (s : string)
| Num (z : Z)
| Arr (a : list Z)
| Map (m : list (string * string)).

Record RedShiftCheckPointObject : Type := {
  key : string;
  np_array : value;
  redshift : value;
  galaxy_meta : value;
  image : value;
  timestamp : value
}.

(** The dataclass constructor on keyword arguments: the six fields, all
    of them and nothing else, [key] a string as annotated. *)
Definition from_kwargs (kwargs : list (string * value))
  : option RedShiftCheckPointObject :=
  if negb (length kwargs =? 6)%nat then None
  else
    match dict_get kwargs "key", dict_get kwargs "np_array",
          dict_get kwargs "redshift", dict_get kwargs "galaxy_meta",
          dict_get kwargs "image", dict_get kwargs "timestamp" with
    | Some (Str k), Some a, Some r, Some g, Some i, Some t =>
        Some {| key := k; np_array := a; redshift := r; galaxy_meta := g;
                image := i; timestamp := t |}
    | _, _, _, _, _, _ => None
    end.

(** The keyword arguments of the repository's test, for key [k] and
    redshift [z]. *)
Definition test_kwargs (k : string) (z : Z) : list (string * value) :=
  [("key", Str k); ("np_array", Arr [z; z]); ("redshift", Num z);
   ("galaxy_meta", Map [("name", "this is my name")]);
   ("image", Str "path/to/image"); ("timestamp", Num 0)].

Definition test_object (k : string) (z : Z) : RedShiftCheckPointObject :=
  {| key := k; np_array := Arr [z; z]; redshift := Num z;
     galaxy_meta := Map [("name", "this is my name")];
     image := Str "path/to/image"; timestamp := Num 0 |}.

End RedShift.

#[export] Instance redshift_metaclass
  : MetaClass RedShift.RedShiftCheckPointObject (list (string * RedShift.value)) :=
  {| key := RedShift.key; construct := RedShift.from_kwargs |}.

(** A checkpoint directory that holds nothing for the [guid], on a file
    system whose clock reads 0, 1, 2, ... at the writes to come. *)
Definition empty_disk {Obj : Type} : Disk Obj :=
  {| objs_in_disk := None; metadata_file := None; pkl_files := ∅;
     stamps := Z.of_nat |}.

(** A candidate that is a keyword dictionary of the test. *)
Definition test_candidate (k : string) (z : Z)
  : candidate RedShift.RedShiftCheckPointObject (list (string * RedShift.value)) :=
  Kwargs (RedShift.test_kwargs k z).

(** The two batches of the repository's test: keys ["0".."4"], then keys
    ["4".."9"] with other payloads. *)
Definition batch_0_to_4
  : list (candidate RedShift.RedShiftCheckPointObject
            (list (string * RedShift.value))) :=
  [test_candidate "0" 10; test_candidate "1" 11; test_candidate "2" 12;
   test_candidate "3" 13; test_candidate "4" 14].

Definition batch_4_to_9
  : list (candidate RedShift.RedShiftCheckPointObject
            (list (string * RedShift.value))) :=
  [test_candidate "4" 24; test_candidate "5" 25; test_candidate "6" 26;
   test_candidate "7" 27; test_candidate "8" 28; test_candidate "9" 29].

(** The store of the repository's test, before its first batch:
    [CheckPointer(..., overwrite=True, metaclass=RedShiftCheckPointObject)]
    with the given threshold, at time [now]. *)
Definition test_store (max_objects : Z) (now : Time)
  : State RedShift.RedShiftCheckPointObject :=
  snd (__init__ (Kw := list (string * RedShift.value))
         true None max_objects empty_disk now).

Arguments test_store (max_objects now)%_Z.

(** Two batches whose keys differ and concatenate to the same string. *)
Definition batch_ab_c
  : list (candidate RedShift.RedShiftCheckPointObject
            (list (string * RedShift.value))) :=
  [test_candidate "ab" 1; test_candidate "c" 2].

Definition batch_a_bc
  : list (candidate RedShift.RedShiftCheckPointObject
            (list (string * RedShift.value))) :=
  [test_candidate "a" 3; test_candidate "bc" 4].

Definition clash_calls
  : list (Time * list (candidate RedShift.RedShiftCheckPointObject
                         (list (string * RedShift.value)))) :=
  [(1%Z, batch_ab_c); (2%Z, batch_a_bc)].

Definition test_calls
  : list (Time * list (candidate RedShift.RedShiftCheckPointObject
                         (list (string * RedShift.value)))) :=
  [(1%Z, batch_0_to_4); (2%Z, batch_4_to_9)].

(** The store of the test once its first batch is saved, at time 1. *)
Definition store_after_first_batch : State RedShift.RedShiftCheckPointObject :=
  snd (save_objects (Some batch_0_to_4) (at_time 1%Z (test_store 1000 0))).

(** The store after the two clashing batches. *)
Definition store_after_clash : State RedShift.RedShiftCheckPointObject :=
  snd (run_saves clash_calls (test_store 1000 0)).

(** Two batches whose keys hold the separator of the keys file, the store
    constructed over the files they leave, and a batch for it. *)
Definition comma_calls
  : list (Time * list (candidate RedShift.RedShiftCheckPointObject
                         (list (string * RedShift.value)))) :=
  [(1%Z, [test_candidate "a,bc" 1]); (2%Z, [test_candidate "a,b" 2])].

Definition store_reloaded_over_comma_keys
  : State RedShift.RedShiftCheckPointObject :=
  snd (__init__ (Kw := list (string * RedShift.value)) false None 1000
         (disk (run_all_saves comma_calls (test_store 1000 0))) 5%Z).

Definition batch_with_comma_key
  : list (candidate RedShift.RedShiftCheckPointObject
            (list (string * RedShift.value))) :=
  [test_candidate "a,b" 3; test_candidate "c" 4].

(** A candidate that is no dictionary and no instance. *)
Definition foreign_candidate
  : candidate RedShift.RedShiftCheckPointObject (list (string * RedShift.value)) :=
  Other.

(** ** [sdss_utils.get_guid]

    [rows] is a [pandas.DataFrame] with distinct string labels whose columns
    have dtype [int64], [float64] or [object], the objects being strings,
    integers and floats.  [rows.iterrows()] yields each row as a series
    over all the labels, of one dtype for the whole row, the common dtype
    of the columns: the integers of an [int64] column come as floats when a
    [float64] column stands beside it and no [object] column does.
    Floats are a parameter of the model: [float_of_int] is the conversion
    of an [int64] to [float64] and [str_float] is [str] on a float. *)

Inductive dtype : Type := Int64 | Float64 | Object.

Section Frames.

Context {F : Type}.

Variable float_of_int : Z -> F.

Variable str_float : F -> string.

(** What a cell holds. *)
Inductive pyobj : Type :=
| PyStr (s : string)
| PyInt (z : Z)
| PyFloat (f : F).

(** The labels with their dtypes, and the rows, each with one cell per
    label. *)
Record DataFrame : Type := {
  columns : list (string * dtype);
  data : list (list pyobj)
}.

(** What a column of a dtype can hold. *)
Definition cell_ok (dt : dtype) (value : pyobj) : bool :=
  match dt, value with
  | Int64, PyInt z =>
      ((-9223372036854775808 <=? z) && (z <=? 9223372036854775807))%Z
  | Float64, PyFloat _ => true
  | Object, _ => true
  | _, _ => false
  end.

Fixpoint row_ok (cols : list (string * dtype)) (row : list pyobj) : bool :=
  match cols, row with
  | [], [] => true
  | (_, dt) :: cols', value :: row' => cell_ok dt value && row_ok cols' row'
  | _, _ => false
  end.

(** The tables the model stands for. *)
Definition frame_ok (rows : DataFrame) : bool :=
  bool_decide (NoDup (map fst (columns rows)))
  && forallb (row_ok (columns rows)) (data rows).

(** The dtype of [rows.values], which every row series has. *)
Definition common_dtype (cols : list (string * dtype)) : dtype :=
  if existsb (fun col => match snd col with Object => true | _ => false end)
       cols
  then Object
  else if existsb (fun col => match snd col with Float64 => true | _ => false end)
            cols
  then Float64
  else Int64.

Definition upcast (to : dtype) (value : pyobj) : pyobj :=
  match to, value with
  | Float64, PyInt z => PyFloat (float_of_int z)
  | _, _ => value
  end.

(** [rows.iterrows()], without the index labels, which the loop drops. *)
Definition iterrows (rows : DataFrame) : list (list (string * pyobj)) :=
  map (fun row =>
         combine (map fst (columns rows))
           (map (upcast (common_dtype (columns rows))) row))
    (data rows).

(** [str(value)]: a string as it is, an integer in decimal. *)
Definition py_str (value : pyobj) : string :=
  match value with
  | PyStr s => s
  | PyInt z => NilZero.string_of_int (Z.to_int z)
  | PyFloat f => str_float f
  end.

(** The [for] loop of [get_guid]; [row[col_name]] raises [KeyError] on a
    label the series does not have. *)
Fixpoint get_guid_loop (rows : list (list (string * pyobj)))
    (col_name : string) (str_cols : string) : result string :=
  match rows with
  | [] => Return str_cols
  | row :: rest =>
      match dict_get row col_name with
      | Some value => get_guid_loop rest col_name (str_cols ++ py_str value)
      | None => Raise KeyError
      end
  end.

Definition get_guid (rows : DataFrame) (col_name : string) : result string :=
  match get_guid_loop (iterrows rows) col_name "" with
  | Return str_cols => Return (Hashlib.hexdigest (encode_utf8 str_cols))
  | Raise e => Raise e
  end.

(** The cells of a column as the table holds them, top to bottom. *)
Definition column (rows : DataFrame) (col_name : string)
  : option (list pyobj) :=
  mapM (fun row => dict_get (combine (map fst (columns rows)) row) col_name)
    (data rows).

End Frames.

Arguments pyobj F : clear implicits.
Arguments DataFrame F : clear implicits.
Arguments PyStr {F} s.
Arguments PyInt {F} z.
Arguments PyFloat {F} f.

(** Floats that are whole numbers below ten to the sixteenth, given by the
    integer they equal: [str] writes them with one decimal. *)
Definition whole_float_of_int (z : Z) : Z := z.

Definition whole_float_str (f : Z) : string :=
  NilZero.string_of_int (Z.to_int f) ++ ".0".

(** A table as the catalogue queries give it: an identifier column of
    integers beside a column of floats. *)
Definition catalogue_rows : DataFrame Z :=
  {| columns := [("specObjID", Int64); ("z", Float64)];
     data := [[PyInt 12; PyFloat 2%Z]; [PyInt 3; PyFloat 1%Z]] |}.

(** The same identifiers beside a column of strings. *)
Definition labelled_rows : DataFrame Z :=
  {| columns := [("specObjID", Int64); ("class", Object)];
     data := [[PyInt 12; PyStr "GALAXY"]; [PyInt 3; PyStr "QSO"]] |}.

(** ** [casjobs_auto.CasjobsDownloader._download_from_scidrive]

    The calls to SciDrive, [print] and [time.sleep] are recorded as a trace
    of events; the environment gives the paths each call of
    [sd.directoryList] lists and what [sd.delete] returns. *)

(** [str.isspace] on the code points below 256. *)
Definition py_isspace (c : ascii) : bool :=
  let n := nat_of_ascii c in
  ((9 <=? n)%nat && (n <=? 13)%nat) || ((28 <=? n)%nat && (n <=? 32)%nat)
  || (n =? 133)%nat || (n =? 160)%nat.

Fixpoint lstrip (s : string) : string :=
  match s with
  | EmptyString => EmptyString
  | String c s' => if py_isspace c then lstrip s' else s
  end.

Fixpoint rstrip (s : string) : string :=
  match s with
  | EmptyString => EmptyString
  | String c s' =>
      match rstrip s' with
      | EmptyString => if py_isspace c then EmptyString else String c EmptyString
      | kept => String c kept
      end
  end.

(** [s.strip()] *)
Definition strip (s : string) : string := rstrip (lstrip s).

(** ['{}'.format(x)] for a string or [None]. *)
Definition format_str (x : option string) : string :=
  match x with
  | Some s => s
  | None => "None"
  end.

Inductive event : Type :=
| DirectoryList (container : string)
| Download (path localFilePath : string)
| Delete (path : string)
| Print (text : string)
| PrintDownloaded (is_deleted : bool)
| Sleep (seconds : Z).

(** The target of the download and where it is saved. *)
Definition tgt_file_path (CASJOBS_CONTAINER table_name : string)
    (uname : option string) : string :=
  CASJOBS_CONTAINER ++ "/" ++ table_name ++ ("_" ++ format_str uname) ++ ".csv".

Definition local_file_path (save_to table_name : string) : string :=
  save_to ++ "/" ++ table_name ++ ".csv".

(** What one unsuccessful round leaves in the trace before the next. *)
Definition waiting_round (CASJOBS_CONTAINER : string) (verbose : bool)
  : list event :=
  (DirectoryList CASJOBS_CONTAINER
     :: (if verbose then [Print "Waiting"] else []) ++ [Sleep 10])%list.

(** The [while True] loop.  [count] is the counter of the source, [calls]
    the number of listings asked so far, [fuel] bounds the recursion;
    [None] is "out of fuel". *)
Fixpoint poll_loop (fuel : nat) (directoryList : nat -> list string)
    (is_deleted : bool) (CASJOBS_CONTAINER tgt localFilePath : string)
    (max_tries : Z) (verbose : bool) (count : Z) (calls : nat)
  : option (list event) :=
  match fuel with
  | O => None
  | S fuel' =>
      let list_of_files := directoryList calls in
      if existsb (fun path => String.eqb (strip path) tgt) list_of_files then
        Some [DirectoryList CASJOBS_CONTAINER; Download tgt localFilePath;
              Delete tgt; PrintDownloaded is_deleted]
      else
        let count := (count + 1)%Z in
        if (count >? max_tries)%Z then
          Some [DirectoryList CASJOBS_CONTAINER;
                Print "could not download file"]
        else
          match poll_loop fuel' directoryList is_deleted CASJOBS_CONTAINER
                  tgt localFilePath max_tries verbose count (S calls) with
          | Some trace =>
              Some (waiting_round CASJOBS_CONTAINER verbose ++ trace)%list
          | None => None
          end
  end.

Definition _download_from_scidrive (CASJOBS_CONTAINER : string)
    (uname : option string) (directoryList : nat -> list string)
    (is_deleted : bool) (table_name save_to : string) (max_tries : Z)
    (verbose : bool) : option (list event) :=
  poll_loop (S (Z.to_nat max_tries)) directoryList is_deleted CASJOBS_CONTAINER
    (tgt_file_path CASJOBS_CONTAINER table_name uname)
    (local_file_path save_to table_name) max_tries verbose 0 0.

(** How often a trace lists the container. *)
Fixpoint listings (trace : list event) : nat :=
  match trace with
  | [] => O
  | DirectoryList _ :: rest => S (listings rest)
  | _ :: rest => listings rest
  end.

(** How long a trace sleeps, in seconds. *)
Fixpoint slept (trace : list event) : Z :=
  match trace with
  | [] => 0%Z
  | Sleep seconds :: rest => (seconds + slept rest)%Z
  | _ :: rest => slept rest
  end.

(** The downloads of a trace: SciDrive path and local path. *)
Fixpoint downloads (trace : list event) : list (string * string) :=
  match trace with
  | [] => []
  | Download path localFilePath :: rest =>
      (path, localFilePath) :: downloads rest
  | _ :: rest => downloads rest
  end.

(** The characters of a hexadecimal digest. *)
Definition is_hex_digit (c : ascii) : bool :=
  let n := nat_of_ascii c in
  ((48 <=? n)%nat && (n <=? 57)%nat) || ((97 <=? n)%nat && (n <=? 102)%nat).

(** [n] unsuccessful rounds in a row. *)
Fixpoint waiting_rounds (n : nat) (CASJOBS_CONTAINER : string) (verbose : bool)
  : list event :=
  match n with
  | O => []
  | S n' =>
      (waiting_round CASJOBS_CONTAINER verbose
       ++ waiting_rounds n' CASJOBS_CONTAINER verbose)%list
  end.

(** Whether a listing holds the target, up to surrounding white space. *)
Definition lists_target (tgt : string) (list_of_files : list string) : bool :=
  existsb (fun path => String.eqb (strip path) tgt) list_of_files.

(** A SciDrive where the table of user [u] shows up, with white space
    around its path, from the third listing on. *)
Definition listing_from_third (calls : nat) : list string :=
  if (calls <? 2)%nat then ["c/other.csv"] else ["c/other.csv"; " c/t_u.csv "].

(** ** More notions for the store *)

(** [s'] has everything [s] has: the seen keys, the text of the keys file
    as a prefix of its own, the pickles by name, the names of the index,
    the threshold. *)
Definition extends {Obj : Type} (s s' : State Obj) : Prop :=
  obj_set (self s) ⊆ obj_set (self s')
  /\ (exists appended, ledger_text s' = ledger_text s ++ appended)
  /\ (forall name, is_Some (pkl_files (disk s) !! name) ->
                   is_Some (pkl_files (disk s') !! name))
  /\ (forall name, name ∈ dict_keys (index s) -> name ∈ dict_keys (index s'))
  /\ max_objects (self s') = max_objects (self s).

(** Every pickle the index names is called by a digest of [get_hash]
    followed by [.pkl]. *)
Definition hashed_names {Obj : Type} (s : State Obj) : Prop :=
  forall name, name ∈ dict_keys (index s) ->
    exists keys : list string, name = get_hash keys ++ ".pkl".

(** The objects the first batch of the test stands for. *)
Definition objects_0_to_4 : list RedShift.RedShiftCheckPointObject :=
  [RedShift.test_object "0" 10; RedShift.test_object "1" 11;
   RedShift.test_object "2" 12; RedShift.test_object "3" 13;
   RedShift.test_object "4" 14].

(** The store of the test after its two batches. *)
Definition store_after_test : State RedShift.RedShiftCheckPointObject :=
  snd (run_saves test_calls (snd (__init__ true None 1000 empty_disk 0%Z))).

(** * Properties *)

Local Open Scope list_scope.

(** ** The digest *)

Lemma be_bytes_length (n : nat) (x : Z) : length (Hashlib.be_bytes n x) = n.
Proof.
  unfold Hashlib.be_bytes. now rewrite length_map, length_rev, length_seq.
Qed.

Lemma sha1_length (msg : list Z) : length (Hashlib.sha1 msg) = 20%nat.
Proof.
  unfold Hashlib.sha1.
  destruct (Hashlib.blocks _ _ _) as [[[[h0 h1] h2] h3] h4].
  now rewrite !length_app, !be_bytes_length.
Qed.

Lemma hex_length (bs : list Z) :
  String.length (Hashlib.hex bs) = (2 * length bs)%nat.
Proof. induction bs as [|b bs IH]; simpl; [reflexivity | rewrite IH; lia]. Qed.

(** A digest is forty characters, whatever was hashed. *)
Lemma hexdigest_length (msg : list Z) :
  String.length (Hashlib.hexdigest msg) = 40%nat.
Proof. unfold Hashlib.hexdigest. now rewrite hex_length, sha1_length. Qed.

Lemma be_bytes_range (n : nat) (x : Z) :
  Forall (fun b => (0 <= b < 256)%Z) (Hashlib.be_bytes n x).
Proof.
  unfold Hashlib.be_bytes. apply Forall_forall. intros b Hb.
  apply list_elem_of_In in Hb. apply in_map_iff in Hb as (i & <- & _).
  change 255%Z with (Z.ones 8). rewrite Z.land_ones by lia.
  apply Z.mod_pos_bound. lia.
Qed.

Lemma sha1_range (msg : list Z) :
  Forall (fun b => (0 <= b < 256)%Z) (Hashlib.sha1 msg).
Proof.
  unfold Hashlib.sha1.
  destruct (Hashlib.blocks _ _ _) as [[[[h0 h1] h2] h3] h4].
  repeat (apply Forall_app; split); apply be_bytes_range.
Qed.

Lemma hex_digit_is_hex (x : Z) :
  (0 <= x < 16)%Z -> is_hex_digit (Hashlib.hex_digit x) = true.
Proof.
  intros Hx.
  assert (Hcases : (x = 0 \/ x = 1 \/ x = 2 \/ x = 3 \/ x = 4 \/ x = 5
                    \/ x = 6 \/ x = 7 \/ x = 8 \/ x = 9 \/ x = 10 \/ x = 11
                    \/ x = 12 \/ x = 13 \/ x = 14 \/ x = 15)%Z) by lia.
  repeat (destruct Hcases as [->|Hcases]; [reflexivity |]).
  subst x. reflexivity.
Qed.

Lemma hex_is_hex (bs : list Z) :
  Forall (fun b => (0 <= b < 256)%Z) bs ->
  Forall (fun c => is_hex_digit c = true)
    (list_ascii_of_string (Hashlib.hex bs)).
Proof.
  induction 1 as [|b bs Hb _ IH]; [constructor |].
  cbn [Hashlib.hex list_ascii_of_string].
  constructor; [|constructor; [|exact IH]]; apply hex_digit_is_hex.
  - rewrite Z.shiftr_div_pow2 by lia. change (2 ^ 4)%Z with 16%Z.
    split; [apply Z.div_pos; lia | apply Z.div_lt_upper_bound; lia].
  - change 15%Z with (Z.ones 4). rewrite Z.land_ones by lia.
    apply Z.mod_pos_bound. lia.
Qed.

Lemma hexdigest_is_hex (msg : list Z) :
  Forall (fun c => is_hex_digit c = true)
    (list_ascii_of_string (Hashlib.hexdigest msg)).
Proof. unfold Hashlib.hexdigest. apply hex_is_hex, sha1_range. Qed.

(** From here on digests are computed with [vm_compute] only; proofs about
    the store never look inside SHA-1. *)
Opaque Hashlib.hexdigest.

(** ** Strings *)

Lemma append_cons (c : ascii) (s t : string) :
  String c s +:+ t = String c (s +:+ t).
Proof. reflexivity. Qed.

Lemma append_nil_l (s : string) : "" +:+ s = s.
Proof. reflexivity. Qed.

Lemma append_nil_r (s : string) : s +:+ "" = s.
Proof.
  induction s as [|c s IH]; [reflexivity |]. now rewrite append_cons, IH.
Qed.

Lemma append_assoc (a b c : string) : (a +:+ b) +:+ c = a +:+ (b +:+ c).
Proof.
  induction a as [|x a IH]; [reflexivity |]. now rewrite !append_cons, IH.
Qed.

Lemma join_empty_sep (l : list string) : join "" l = concat_in_order l.
Proof.
  induction l as [|x [|y rest] IH].
  - reflexivity.
  - symmetry. apply append_nil_r.
  - change (join "" (x :: y :: rest)) with (x +:+ "" +:+ join "" (y :: rest)).
    rewrite IH. reflexivity.
Qed.

Lemma concat_in_order_app (l1 l2 : list string) :
  concat_in_order (l1 ++ l2) = concat_in_order l1 +:+ concat_in_order l2.
Proof.
  induction l1 as [|x l1 IH]; [reflexivity |].
  unfold concat_in_order in *. simpl. now rewrite IH, append_assoc.
Qed.

Lemma encode_utf8_app (a b : string) :
  encode_utf8 (a +:+ b) = encode_utf8 a ++ encode_utf8 b.
Proof.
  induction a as [|c a IH]; [reflexivity |].
  rewrite append_cons. simpl. now rewrite IH, app_assoc.
Qed.

(** ** The content hasher *)

(** The digest depends on the concatenation only: the boundaries between
    the strings are not hashed. *)
Lemma get_hash_concat (l1 l2 : list string) :
  concat_in_order l1 = concat_in_order l2 -> get_hash l1 = get_hash l2.
Proof.
  intros E. unfold get_hash. now rewrite !join_empty_sep, E.
Qed.

Lemma get_hash_app (l1 l2 : list string) :
  get_hash (l1 ++ l2)
  = Hashlib.hexdigest
      (encode_utf8 (concat_in_order l1) ++ encode_utf8 (concat_in_order l2)).
Proof.
  unfold get_hash.
  now rewrite join_empty_sep, concat_in_order_app, encode_utf8_app.
Qed.



(** ** Dictionaries *)

Section DictFacts.

Context {V : Type}.

Implicit Types (d : list (string * V)) (k : string) (v : V).

Lemma dict_get_set_eq d k v : dict_get (dict_set d k v) k = Some v.
Proof.
  induction d as [|[k' v'] d IH]; simpl.
  - now rewrite String.eqb_refl.
  - destruct (String.eqb_spec k k') as [->|Hne]; simpl.
    + now rewrite String.eqb_refl.
    + destruct (String.eqb_spec k k'); [contradiction | exact IH].
Qed.

Lemma dict_get_set_ne d k k' v :
  k <> k' -> dict_get (dict_set d k v) k' = dict_get d k'.
Proof.
  intros Hne. induction d as [|[k0 v0] d IH]; simpl.
  - destruct (String.eqb_spec k' k); [congruence | reflexivity].
  - destruct (String.eqb_spec k k0) as [->|Hk]; simpl.
    + destruct (String.eqb_spec k' k0); [congruence | reflexivity].
    + destruct (String.eqb_spec k' k0); [reflexivity | exact IH].
Qed.

Lemma dict_keys_set d k v :
  dict_keys (dict_set d k v)
  = if decide (k ∈ dict_keys d) then dict_keys d else dict_keys d ++ [k].
Proof.
  unfold dict_keys. induction d as [|[k' v'] d IH]; simpl.
  - reflexivity.
  - destruct (String.eqb_spec k k') as [->|Hne]; simpl.
    + rewrite decide_True by constructor. reflexivity.
    + rewrite IH. destruct (decide (k ∈ map fst d)) as [Hin|Hout].
      * rewrite decide_True by now constructor. reflexivity.
      * rewrite decide_False; [reflexivity |].
        intros Hin. apply elem_of_cons in Hin as [?|?]; congruence.
Qed.

Lemma dict_keys_set_nodup d k v :
  NoDup (dict_keys d) -> NoDup (dict_keys (dict_set d k v)).
Proof.
  intros Hnd. rewrite dict_keys_set. case_decide as Hin; [exact Hnd |].
  apply NoDup_app. repeat split; [exact Hnd | | apply NoDup_singleton].
  intros x Hx Hx'. apply list_elem_of_singleton in Hx'. congruence.
Qed.

Lemma dict_keys_set_elem d k v k' :
  k' ∈ dict_keys (dict_set d k v) <-> k' = k \/ k' ∈ dict_keys d.
Proof.
  rewrite dict_keys_set. case_decide as Hin.
  - split; [now right | intros [->|?]; assumption].
  - rewrite elem_of_app, list_elem_of_singleton. tauto.
Qed.

Lemma dict_get_elem d k v : dict_get d k = Some v -> (k, v) ∈ d.
Proof.
  induction d as [|[k' v'] d IH]; simpl; [discriminate |].
  destruct (String.eqb_spec k k') as [->|Hne].
  - intros [= ->]. constructor.
  - intros Hget. constructor. now apply IH.
Qed.

Lemma dict_get_keys d k : k ∈ dict_keys d -> is_Some (dict_get d k).
Proof.
  unfold dict_keys. induction d as [|[k' v'] d IH]; simpl.
  - intros Hin. inversion Hin.
  - intros Hin. destruct (String.eqb_spec k k') as [->|Hne]; [eauto |].
    apply elem_of_cons in Hin as [?|?]; [congruence | now apply IH].
Qed.

Lemma dict_get_None d k : k ∉ dict_keys d -> dict_get d k = None.
Proof.
  unfold dict_keys. induction d as [|[k' v'] d IH]; simpl; [reflexivity |].
  intros Hout. destruct (String.eqb_spec k k') as [->|Hne].
  - exfalso. apply Hout. constructor.
  - apply IH. intros Hin. apply Hout. now constructor.
Qed.

Lemma elem_dict_keys d k v : (k, v) ∈ d -> k ∈ dict_keys d.
Proof.
  intros Hin. unfold dict_keys.
  change k with (fst (k, v)). now apply list_elem_of_fmap_2.
Qed.

(** With unique keys, the items after [d[k] = v] are the new item and the
    old items under other keys. *)
Lemma elem_of_dict_set d k v k' v' :
  NoDup (dict_keys d) ->
  (k', v') ∈ dict_set d k v <-> (k' = k /\ v' = v) \/ (k' <> k /\ (k', v') ∈ d).
Proof.
  unfold dict_keys. induction d as [|[k0 v0] d IH]; simpl; intros Hnd.
  - rewrite list_elem_of_singleton. split.
    + intros [= -> ->]. now left.
    + intros [[-> ->]|[_ Hin]]; [reflexivity | inversion Hin].
  - apply NoDup_cons in Hnd as [Hk0 Hnd].
    destruct (String.eqb_spec k k0) as [->|Hne].
    + rewrite !elem_of_cons. split.
      * intros [[= -> ->]|Hin]; [now left |]. right. split; [|now right].
        intros ->. apply Hk0. change k0 with (fst (k0, v')).
        now apply list_elem_of_fmap_2.
      * intros [[-> ->]|[Hne [[= -> ->]|Hin]]];
          [now left | contradiction | now right].
    + rewrite !elem_of_cons, (IH Hnd). split.
      * intros [[= -> ->]|[[-> ->]|[Hk Hin]]].
        -- right. split; [congruence | now left].
        -- now left.
        -- right. split; [exact Hk | now right].
      * intros [[-> ->]|[Hk [[= -> ->]|Hin]]].
        -- right. now left.
        -- now left.
        -- right. right. now split.
Qed.

End DictFacts.

(** ** What one [save_objects] call does *)

Section SaveFacts.

Context {Obj Kw : Type} `{MetaClass Obj Kw}.

Implicit Types (s : State Obj) (cs : list (candidate Obj Kw)).
Implicit Types (objs : list Obj) (d : list (string * Obj)) (k : string).

Lemma as_metaclass_eq (c : candidate Obj Kw) s :
  as_metaclass c s
  = match to_object c with
    | Some o => (Return o, s)
    | None => (Raise TypeError, s)
    end.
Proof.
  destruct c as [kwargs|obj|]; simpl; try reflexivity.
  destruct (construct kwargs); reflexivity.
Qed.

(** The loop raises [TypeError] at the first candidate that is no instance,
    and touches nothing; otherwise it returns the keys and the dictionary
    of the accepted objects. *)
Lemma save_loop_eq cs (ks : list string) d s :
  save_loop cs ks d s
  = match mapM to_object cs with
    | Some objs =>
        (Return (ks ++ map key (accepted (obj_set (self s)) objs),
                 store_all (accepted (obj_set (self s)) objs) d), s)
    | None => (Raise TypeError, s)
    end.
Proof.
  revert ks d. induction cs as [|c cs IH]; intros ks d.
  - simpl. unfold ret. now rewrite app_nil_r.
  - cbn [save_loop mapM]. unfold bind at 1. rewrite as_metaclass_eq.
    destruct (to_object c) as [o|]; [|reflexivity].
    unfold bind, gets. cbn [mbind option_bind].
    unfold accepted. destruct (decide (key o ∈ obj_set (self s))) as [Hin|Hout].
    + rewrite IH. destruct (mapM to_object cs) as [objs|]; [|reflexivity].
      cbn [mbind option_bind mret option_ret].
      rewrite filter_cons_False by (intros Hn; now apply Hn).
      reflexivity.
    + rewrite IH. destruct (mapM to_object cs) as [objs|]; [|reflexivity].
      cbn [mbind option_bind mret option_ret].
      rewrite filter_cons_True by exact Hout.
      cbn [map store_all fold_left]. now rewrite <- app_assoc.
Qed.

Lemma store_all_length objs d :
  (0 <? length (store_all objs d))%nat
  = match objs, d with [], [] => false | _, _ => true end.
Proof.
  revert d. induction objs as [|o objs IH]; intros d.
  - destruct d; reflexivity.
  - cbn [store_all fold_left]. fold (store_all objs (dict_set d (key o) o)).
    rewrite IH. destruct objs; [|reflexivity].
    destruct d as [|[k v] d]; simpl; [reflexivity |].
    destruct (key o =? k)%string; reflexivity.
Qed.

(** [save_objects] on a batch, in one equation: the two checks, then either
    nothing or the commit of the accepted objects. *)
Lemma save_objects_eq cs s :
  save_objects (Some cs) s
  = if (Z.of_nat (length cs) >? max_objects (self s))%Z
    then (Raise ValueError, s)
    else match mapM to_object cs with
         | None => (Raise TypeError, s)
         | Some objs =>
             match accepted (obj_set (self s)) objs with
             | [] => (Return tt, s)
             | new => (Return tt, commit (map key new) (store_all new []) s)
             end
         end.
Proof.
  unfold save_objects. unfold bind at 1. unfold gets at 1.
  destruct (Z.of_nat (length cs) >? max_objects (self s))%Z; [reflexivity |].
  unfold bind at 1. rewrite save_loop_eq.
  destruct (mapM to_object cs) as [objs|]; [|reflexivity].
  rewrite store_all_length. cbn [app].
  destruct (accepted (obj_set (self s)) objs) as [|o new]; [reflexivity |].
  destruct s as [[f m p] [X lm mx] t]. reflexivity.
Qed.

Lemma save_objects_None s : save_objects None s = (Return tt, s).
Proof. reflexivity. Qed.

End SaveFacts.

(** ** Rejected batches *)

Section Rejections.

Context {Obj Kw : Type} `{MetaClass Obj Kw}.

Implicit Types (s : State Obj) (cs : list (candidate Obj Kw)).

(** C4: a batch with more candidates than [max_objects] makes [save_objects]
    raise the oversized-batch error ([ValueError]) and leaves the keys file,
    the index document, the pickles, [obj_set] and [last_modified] as they
    were. *)
Theorem oversized_batch_rejected cs s :
  (Z.of_nat (length cs) > max_objects (self s))%Z ->
  save_objects (Some cs) s = (Raise ValueError, s).
Proof.
  intros Hbig. rewrite save_objects_eq.
  destruct (Z.gtb_spec (Z.of_nat (length cs)) (max_objects (self s)));
    [reflexivity | lia].
Qed.

(** C5, amended: a batch within the threshold that contains a candidate
    which is neither an instance of the shape nor a dictionary the shape can
    be built from makes [save_objects] raise [TypeError], and nothing is
    modified, whatever came before the offending candidate. *)
Theorem bad_candidate_rejected cs s (c : candidate Obj Kw) :
  (Z.of_nat (length cs) <= max_objects (self s))%Z ->
  c ∈ cs -> to_object c = None ->
  save_objects (Some cs) s = (Raise TypeError, s).
Proof.
  intros Hfits Hin Hbad. rewrite save_objects_eq.
  destruct (Z.gtb_spec (Z.of_nat (length cs)) (max_objects (self s)));
    [lia |].
  replace (mapM to_object cs) with (@None (list Obj)); [reflexivity |].
  symmetry. apply mapM_None_2, Exists_exists. eauto.
Qed.

End Rejections.

Lemma oversized_batch_rejected_witness :
  (Z.of_nat (length [test_candidate "0" 1; test_candidate "1" 2])
   > max_objects (self (test_store 1 0)))%Z
  /\ save_objects (Some [test_candidate "0" 1; test_candidate "1" 2])
       (test_store 1 0)
     = (Raise ValueError, test_store 1 0).
Proof.
  assert (Hbig : (Z.of_nat (length [test_candidate "0" 1; test_candidate "1" 2])
                  > max_objects (self (test_store 1 0)))%Z)
    by (vm_compute; reflexivity).
  split; [exact Hbig |].
  exact (oversized_batch_rejected _ _ Hbig).
Defined.

(** C5 as stated fails where the batch is also over the threshold: the
    size check comes first and the call raises [ValueError]. *)
Lemma type_error_not_raised_when_oversized :
  foreign_candidate ∈ [test_candidate "0" 1; foreign_candidate]
  /\ to_object foreign_candidate = None
  /\ fst (save_objects (Some [test_candidate "0" 1; foreign_candidate])
            (test_store 1 0))
     = Raise ValueError
  /\ fst (save_objects (Some [test_candidate "0" 1; foreign_candidate])
            (test_store 1 0))
     <> Raise TypeError.
Proof.
  split; [apply elem_of_cons; right; constructor |].
  split; [reflexivity |].
  assert (E : fst (save_objects (Some [test_candidate "0" 1; foreign_candidate])
                     (test_store 1 0)) = Raise ValueError)
    by (vm_compute; reflexivity).
  split; [exact E |]. rewrite E. discriminate.
Qed.

Lemma bad_candidate_rejected_witness :
  (Z.of_nat (length [test_candidate "0" 1; foreign_candidate])
   <= max_objects (self (test_store 1000 0)))%Z
  /\ foreign_candidate ∈ [test_candidate "0" 1; foreign_candidate]
  /\ to_object foreign_candidate = None
  /\ save_objects (Some [test_candidate "0" 1; foreign_candidate])
       (test_store 1000 0)
     = (Raise TypeError, test_store 1000 0).
Proof.
  assert (Hfits : (Z.of_nat (length [test_candidate "0" 1; foreign_candidate])
                   <= max_objects (self (test_store 1000 0)))%Z)
    by (vm_compute; discriminate).
  assert (Hin : foreign_candidate ∈ [test_candidate "0" 1; foreign_candidate])
    by (apply elem_of_cons; right; constructor).
  assert (Hbad : to_object foreign_candidate = None) by reflexivity.
  split; [exact Hfits |]. split; [exact Hin |]. split; [exact Hbad |].
  exact (bad_candidate_rejected _ _ _ Hfits Hin Hbad).
Defined.

(** ** The dictionary of accepted objects *)

Section StoreAll.

Context {Obj Kw : Type} `{MetaClass Obj Kw}.

Implicit Types (objs : list Obj) (d : list (string * Obj)) (k : string).

Lemma elem_of_dict_set_inv {V} (d : list (string * V)) k v k' v' :
  (k', v') ∈ dict_set d k v -> (k' = k /\ v' = v) \/ (k', v') ∈ d.
Proof.
  induction d as [|[k0 v0] d IH]; simpl.
  - intros Hin. apply list_elem_of_singleton in Hin as [= -> ->]. now left.
  - destruct (String.eqb_spec k k0) as [->|Hne]; rewrite !elem_of_cons.
    + intros [[= -> ->]|Hin]; [now left | right; now right].
    + intros [[= -> ->]|Hin]; [right; now left |].
      destruct (IH Hin) as [?|?]; [now left | right; now right].
Qed.

Lemma store_all_cons o objs d :
  store_all (o :: objs) d = store_all objs (dict_set d (key o) o).
Proof. reflexivity. Qed.

Lemma store_all_app objs1 objs2 d :
  store_all (objs1 ++ objs2) d = store_all objs2 (store_all objs1 d).
Proof. unfold store_all. apply fold_left_app. Qed.

Lemma store_all_keys_elem objs d k :
  k ∈ dict_keys (store_all objs d) <-> k ∈ dict_keys d \/ k ∈ map key objs.
Proof.
  revert d. induction objs as [|o objs IH]; intros d.
  - simpl. split; [now left | intros [?|Hin]; [assumption | inversion Hin]].
  - rewrite store_all_cons, IH, dict_keys_set_elem. cbn [map].
    rewrite elem_of_cons. tauto.
Qed.

Lemma store_all_nodup objs d :
  NoDup (dict_keys d) -> NoDup (dict_keys (store_all objs d)).
Proof.
  revert d. induction objs as [|o objs IH]; intros d Hnd; [exact Hnd |].
  rewrite store_all_cons. now apply IH, dict_keys_set_nodup.
Qed.

Lemma store_all_keyed objs d :
  (forall k o, (k, o) ∈ d -> key o = k) ->
  forall k o, (k, o) ∈ store_all objs d -> key o = k.
Proof.
  revert d. induction objs as [|o' objs IH]; intros d Hd k o; [apply Hd |].
  rewrite store_all_cons. apply IH. clear k o. intros k o Hin.
  apply elem_of_dict_set_inv in Hin as [[-> ->]|Hin];
    [reflexivity | now apply Hd].
Qed.

Lemma store_all_get_other objs d k :
  k ∉ map key objs -> dict_get (store_all objs d) k = dict_get d k.
Proof.
  revert d. induction objs as [|o objs IH]; intros d Hout; [reflexivity |].
  cbn [map] in Hout. apply not_elem_of_cons in Hout as [Hne Hout].
  rewrite store_all_cons, IH by exact Hout.
  apply dict_get_set_ne. congruence.
Qed.

(** The dictionary keeps, for each key, the last object put under it. *)
Lemma store_all_get_last objs1 o objs2 d :
  (forall o', o' ∈ objs2 -> key o' <> key o) ->
  dict_get (store_all (objs1 ++ o :: objs2) d) (key o) = Some o.
Proof.
  intros Hlast. rewrite store_all_app, store_all_cons.
  rewrite store_all_get_other; [apply dict_get_set_eq |].
  intros Hin. apply list_elem_of_fmap in Hin as (o' & Hk & Ho').
  exact (Hlast o' Ho' (eq_sym Hk)).
Qed.

Lemma accepted_elem (seen : gset string) objs o :
  o ∈ accepted seen objs <-> (key o ∉ seen) /\ o ∈ objs.
Proof. unfold accepted. rewrite list_elem_of_filter. reflexivity. Qed.

Lemma accepted_app (seen : gset string) objs1 objs2 :
  accepted seen (objs1 ++ objs2) = accepted seen objs1 ++ accepted seen objs2.
Proof. unfold accepted. apply filter_app. Qed.

Lemma accepted_keys (seen : gset string) objs k :
  k ∈ map key (accepted seen objs) <-> (k ∉ seen) /\ k ∈ map key objs.
Proof.
  split.
  - intros Hin. apply list_elem_of_fmap in Hin as (o & -> & Ho).
    apply accepted_elem in Ho as [Hnew Ho]. split; [exact Hnew |].
    now apply list_elem_of_fmap_2.
  - intros [Hnew Hin]. apply list_elem_of_fmap in Hin as (o & -> & Ho).
    apply list_elem_of_fmap_2, accepted_elem. now split.
Qed.

End StoreAll.

(** ** The store keeps itself consistent *)

Section Invariant.

Context {Obj Kw : Type} `{MetaClass Obj Kw}.

Implicit Types (s : State Obj) (cs : list (candidate Obj Kw)).
Implicit Types (objs : list Obj) (k : string).

Lemma elem_of_index_keys s k :
  k ∈ index_keys s <-> exists name keys, (name, keys) ∈ index s /\ k ∈ keys.
Proof.
  unfold index_keys. rewrite elem_of_list_to_set, list_elem_of_In, in_concat.
  split.
  - intros (keys & Hin & Hk). apply in_map_iff in Hin as ([name keys'] & E & Hin).
    simpl in E. subst keys'. exists name, keys.
    now rewrite !list_elem_of_In.
  - intros (name & keys & Hin & Hk). exists keys.
    split; [|now apply list_elem_of_In].
    apply in_map_iff. exists (name, keys).
    split; [reflexivity | now apply list_elem_of_In].
Qed.

(** The outcome of a call, whatever it is, leaves the state as it was or
    commits the accepted objects of the batch. *)
Lemma save_objects_state cs s :
  snd (save_objects (Some cs) s) = s
  \/ exists objs,
       mapM to_object cs = Some objs
       /\ accepted (obj_set (self s)) objs <> []
       /\ save_objects (Some cs) s
          = (Return tt,
             commit (map key (accepted (obj_set (self s)) objs))
               (store_all (accepted (obj_set (self s)) objs) []) s).
Proof.
  rewrite save_objects_eq.
  destruct (Z.of_nat (length cs) >? max_objects (self s))%Z; [now left |].
  destruct (mapM to_object cs) as [objs|]; [|now left].
  destruct (accepted (obj_set (self s)) objs) as [|o new] eqn:E; [now left |].
  right. exists objs. rewrite E. repeat split. discriminate.
Qed.

Lemma consistent_commit s objs :
  consistent s ->
  consistent
    (commit (map key (accepted (obj_set (self s)) objs))
       (store_all (accepted (obj_set (self s)) objs) []) s).
Proof.
  intros [Hnames Hblobs Hdom Honce Hsub].
  set (new := accepted (obj_set (self s)) objs).
  set (os := store_all new []).
  assert (Hnewkeys : forall k, k ∈ dict_keys os -> k ∉ obj_set (self s)).
  { intros k Hk. apply store_all_keys_elem in Hk as [Hk|Hk]; [inversion Hk |].
    now apply accepted_keys in Hk as [Hnew _]. }
  assert (Hold : forall name keys k,
             (name, keys) ∈ index s -> k ∈ keys -> k ∈ obj_set (self s)).
  { intros name keys k Hin Hk. apply Hsub, elem_of_index_keys. eauto. }
  split.
  - cbn. now apply dict_keys_set_nodup.
  - cbn. intros name keys Hin.
    apply (elem_of_dict_set _ _ _ _ _ Hnames) in Hin as [[-> ->]|[Hne Hin]].
    + exists os. rewrite lookup_insert_eq. repeat split.
      * apply store_all_nodup. constructor.
      * apply store_all_keyed. intros k o Hin. inversion Hin.
    + rewrite lookup_insert_ne by congruence. now apply Hblobs.
  - cbn. intros name Hsome. apply dict_keys_set_elem.
    destruct (decide (name = blob_name os)) as [->|Hne]; [now left |].
    right. apply Hdom. now rewrite lookup_insert_ne in Hsome by congruence.
  - cbn. intros k n1 ks1 n2 ks2 H1 H2 Hk1 Hk2.
    apply (elem_of_dict_set _ _ _ _ _ Hnames) in H1 as [[-> ->]|[Hn1 H1]];
      apply (elem_of_dict_set _ _ _ _ _ Hnames) in H2 as [[-> ->]|[Hn2 H2]].
    + reflexivity.
    + exfalso. apply (Hnewkeys k Hk1). eauto.
    + exfalso. apply (Hnewkeys k Hk2). eauto.
    + eauto.
  - intros k Hk. apply elem_of_index_keys in Hk as (name & keys & Hin & Hk).
    cbn in Hin |- *.
    apply (elem_of_dict_set _ _ _ _ _ Hnames) in Hin as [[-> ->]|[Hne Hin]].
    + apply elem_of_union. right. apply elem_of_list_to_set.
      apply store_all_keys_elem in Hk as [Hk|Hk]; [inversion Hk | exact Hk].
    + apply elem_of_union. left. eauto.
Qed.

Lemma consistent_at_time (t : Time) s : consistent s -> consistent (at_time t s).
Proof. intros [? ? ? ? ?]. split; assumption. Qed.

Lemma consistent_save_objects cs s :
  consistent s -> consistent (snd (save_objects (Some cs) s)).
Proof.
  intros Hs. destruct (save_objects_state cs s) as [->|(objs & _ & _ & ->)];
    [exact Hs | now apply consistent_commit].
Qed.

Lemma consistent_run_saves (calls : list (Time * list (candidate Obj Kw))) s :
  consistent s -> consistent (snd (run_saves calls s)).
Proof.
  revert s. induction calls as [|[t cs] calls IH]; intros s Hs; [exact Hs |].
  cbn [run_saves]. unfold bind, modify.
  pose proof (consistent_save_objects cs (at_time t s)
                (consistent_at_time t s Hs)) as Hs'.
  destruct (save_objects (Some cs) (at_time t s)) as [[[]|e] s']; cbn in *.
  - now apply IH.
  - exact Hs'.
Qed.

(** A store constructed with [overwrite] starts consistent, whatever the
    directory held and whether or not a first batch is given. *)
Lemma consistent_init_overwrite (meta_objects : option (list (candidate Obj Kw)))
    (max : Z) (d : Disk Obj) (now : Time) :
  consistent (snd (__init__ true meta_objects max d now)).
Proof.
  unfold __init__. cbn [objs_in_disk].
  set (s0 := {| disk := _; self := _; clock := now |}).
  assert (H0 : consistent s0).
  { split; cbn.
    - constructor.
    - intros name keys Hin. inversion Hin.
    - intros name [x Hx]. now rewrite lookup_empty in Hx.
    - intros k n1 ks1 n2 ks2 Hin. inversion Hin.
    - unfold index_keys. cbn. set_solver. }
  destruct meta_objects as [cs|]; [now apply consistent_save_objects | exact H0].
Qed.

End Invariant.

(** ** Index and ledger *)

Section IndexLedger.

Context {Obj Kw : Type} `{MetaClass Obj Kw}.

Implicit Types (s : State Obj) (cs : list (candidate Obj Kw)).
Implicit Types (objs : list Obj) (k : string).

Lemma blob_written_commit cs s objs :
  mapM to_object cs = Some objs ->
  accepted (obj_set (self s)) objs <> [] ->
  save_objects (Some cs) s
  = (Return tt,
     commit (map key (accepted (obj_set (self s)) objs))
       (store_all (accepted (obj_set (self s)) objs) []) s) ->
  blob_written cs s
  = Some (blob_name (store_all (accepted (obj_set (self s)) objs) [])).
Proof.
  intros Hobjs Hnew Hsave. unfold blob_written.
  rewrite save_objects_eq in Hsave.
  destruct (Z.of_nat (length cs) >? max_objects (self s))%Z; [discriminate |].
  rewrite save_loop_eq, Hobjs. cbn [fst]. rewrite store_all_length.
  destruct (accepted (obj_set (self s)) objs); [contradiction | reflexivity].
Qed.

(** A commit under a name the index does not have adds exactly the new
    keys to the keys of the index. *)
Lemma index_keys_commit_fresh s objs k :
  consistent s ->
  blob_name (store_all (accepted (obj_set (self s)) objs) [])
    ∉ dict_keys (index s) ->
  k ∈ index_keys
        (commit (map key (accepted (obj_set (self s)) objs))
           (store_all (accepted (obj_set (self s)) objs) []) s)
  <-> k ∈ index_keys s \/ k ∈ map key (accepted (obj_set (self s)) objs).
Proof.
  intros Hs Hfresh. rewrite !elem_of_index_keys. cbn [index commit disk metadata_file].
  fold (index s). split.
  - intros (name & keys & Hin & Hk).
    apply (elem_of_dict_set _ _ _ _ _ (index_names_nodup s Hs)) in Hin
      as [[-> ->]|[Hne Hin]].
    + right. apply store_all_keys_elem in Hk as [Hk|Hk];
        [inversion Hk | exact Hk].
    + left. eauto.
  - intros [(name & keys & Hin & Hk)|Hk].
    + exists name, keys. split; [|exact Hk].
      apply (elem_of_dict_set _ _ _ _ _ (index_names_nodup s Hs)). right.
      split; [|exact Hin]. intros ->. apply Hfresh.
      now apply elem_dict_keys in Hin.
    + eexists _, _. split.
      * apply (elem_of_dict_set _ _ _ _ _ (index_names_nodup s Hs)).
        left. split; reflexivity.
      * apply store_all_keys_elem. now right.
Qed.

Lemma ledger_is_index_step cs (t : Time) s :
  consistent s ->
  obj_set (self s) = index_keys s ->
  (forall name, blob_written cs (at_time t s) = Some name ->
                name ∉ dict_keys (index s)) ->
  obj_set (self (snd (save_objects (Some cs) (at_time t s))))
  = index_keys (snd (save_objects (Some cs) (at_time t s))).
Proof.
  intros Hs Heq Hfresh.
  destruct (save_objects_state cs (at_time t s))
    as [->|(objs & Hobjs & Hnew & Hsave)]; [exact Heq |].
  specialize (Hfresh _ (blob_written_commit _ _ _ Hobjs Hnew Hsave)).
  rewrite Hsave. cbn [snd]. apply set_eq. intros k.
  rewrite (index_keys_commit_fresh (at_time t s) objs k
             (consistent_at_time t s Hs) Hfresh).
  cbn [commit self obj_set at_time]. rewrite elem_of_union, elem_of_list_to_set.
  rewrite Heq. reflexivity.
Qed.

Lemma ledger_is_index_run (calls : list (Time * list (candidate Obj Kw))) s :
  consistent s ->
  obj_set (self s) = index_keys s ->
  fresh_names calls s ->
  obj_set (self (snd (run_saves calls s))) = index_keys (snd (run_saves calls s)).
Proof.
  revert s. induction calls as [|[t cs] calls IH]; intros s Hs Heq Hfresh;
    [exact Heq |].
  destruct Hfresh as [Hname Hrest].
  pose proof (ledger_is_index_step cs t s Hs Heq Hname) as Heq'.
  pose proof (consistent_save_objects cs (at_time t s)
                (consistent_at_time t s Hs)) as Hs'.
  cbn [run_saves]. unfold bind, modify.
  destruct (save_objects (Some cs) (at_time t s)) as [[[]|e] s']; cbn in *.
  - now apply IH.
  - exact Heq'.
Qed.

(** C1, amended: after any sequence of successful [save_objects] calls on a
    store constructed empty, every key of the index document is in
    [obj_set]; the two sets are equal when no call wrote its pickle under a
    name the index already had. *)
Theorem index_within_ledger
    (calls : list (Time * list (candidate Obj Kw)))
    (max : Z) (d : Disk Obj) (now : Time) s :
  run_saves calls (snd (__init__ true None max d now)) = (Return tt, s) ->
  index_keys s ⊆ obj_set (self s)
  /\ (fresh_names calls (snd (__init__ true None max d now)) ->
      obj_set (self s) = index_keys s).
Proof.
  intros Hrun.
  pose proof (consistent_init_overwrite None max d now) as H0.
  replace s with (snd (run_saves calls (snd (__init__ true None max d now))))
    by now rewrite Hrun.
  split.
  - apply index_in_ledger. now apply consistent_run_saves.
  - intros Hfresh. apply ledger_is_index_run; [exact H0 | | exact Hfresh].
    unfold index_keys. cbn. set_solver.
Qed.

End IndexLedger.

(** C1 as stated fails: two batches whose new keys concatenate to the same
    string get the same pickle name; the second index entry replaces the
    first, whose keys stay in [obj_set] only. *)
Lemma ledger_exceeds_index_after_name_clash :
  fst (run_saves clash_calls (test_store 1000 0)) = Return tt
  /\ obj_set (self (snd (run_saves clash_calls (test_store 1000 0))))
     <> index_keys (snd (run_saves clash_calls (test_store 1000 0))).
Proof.
  split; [vm_compute; reflexivity |].
  intros E. apply (f_equal (fun X : gset string => bool_decide ("ab" ∈ X))) in E.
  vm_compute in E. discriminate.
Qed.

Lemma returned_pair {A S : Type} (x : result A * S) (a : A) :
  fst x = Return a -> x = (Return a, snd x).
Proof. destruct x as [r s]. simpl. now intros ->. Qed.

Lemma index_within_ledger_witness :
  index_keys (snd (run_saves test_calls (test_store 1000 0)))
    ⊆ obj_set (self (snd (run_saves test_calls (test_store 1000 0))))
  /\ obj_set (self (snd (run_saves test_calls (test_store 1000 0))))
     = index_keys (snd (run_saves test_calls (test_store 1000 0))).
Proof.
  assert (Hrun : run_saves test_calls
                   (snd (__init__ true None 1000 empty_disk 0%Z))
                 = (Return tt, snd (run_saves test_calls (test_store 1000 0)))).
  { apply (returned_pair (run_saves test_calls (test_store 1000 0))).
    vm_compute. reflexivity. }
  destruct (index_within_ledger _ _ _ _ _ Hrun) as [Hsub Heq].
  split; [exact Hsub |]. apply Heq.
  split; [|split; [|exact I]].
  - intros name E. vm_compute in E. injection E as <-.
    apply (bool_decide_unpack _). vm_compute. exact I.
  - intros name E. vm_compute in E. injection E as <-.
    apply (bool_decide_unpack _). vm_compute. exact I.
Defined.

(** ** Point lookup *)

Section Lookup.

Context {Obj Kw : Type} `{MetaClass Obj Kw}.

Implicit Types (s : State Obj) (k : string).
Implicit Types (idx : list (string * list string)).

Lemma find_tgt_file_cons k (name : string) (keys : list string) idx :
  find_tgt_file k ((name, keys) :: idx)
  = match find_tgt_file k idx with
    | Some later => Some later
    | None => if decide (k ∈ keys) then Some name else None
    end.
Proof.
  unfold find_tgt_file. cbn [fold_left].
  assert (Hacc : forall acc,
    fold_left
      (fun tgt_file entry =>
         let '(key, value) := entry in
         let value_set : gset string := list_to_set value in
         if decide (k ∈ value_set) then Some key else tgt_file) idx acc
    = match fold_left
              (fun tgt_file entry =>
                 let '(key, value) := entry in
                 let value_set : gset string := list_to_set value in
                 if decide (k ∈ value_set) then Some key else tgt_file)
              idx None with
      | Some later => Some later
      | None => acc
      end).
  { induction idx as [|[n ks] idx IH]; intros acc; [reflexivity |].
    cbn [fold_left]. rewrite IH. symmetry. rewrite IH.
    destruct (fold_left _ idx None); [reflexivity |].
    destruct (decide (k ∈ list_to_set ks)); reflexivity. }
  rewrite Hacc. destruct (fold_left _ idx None); [reflexivity |].
  destruct (decide (k ∈ keys)) as [Hin|Hout].
  - rewrite decide_True by now apply elem_of_list_to_set. reflexivity.
  - rewrite decide_False; [reflexivity |].
    intros Hin. now apply elem_of_list_to_set in Hin.
Qed.

Lemma find_tgt_file_None k idx :
  find_tgt_file k idx = None
  <-> forall name keys, (name, keys) ∈ idx -> k ∉ keys.
Proof.
  induction idx as [|[n ks] idx IH].
  - split; [intros _ name keys Hin; inversion Hin | reflexivity].
  - rewrite find_tgt_file_cons. destruct (find_tgt_file k idx) as [later|].
    + split; [discriminate |]. intros Hall. apply (proj2 IH).
      intros name keys Hin. apply (Hall name keys). now constructor.
    + destruct (decide (k ∈ ks)) as [Hin|Hout].
      * split; [discriminate |]. intros Hall. exfalso.
        apply (Hall n ks); [constructor | exact Hin].
      * split; [|reflexivity]. intros _ name keys Hin.
        apply elem_of_cons in Hin as [[= -> ->]|Hin]; [exact Hout |].
        destruct IH as [IH _]. now apply (IH eq_refl name keys).
Qed.

(** What the scan returns is the last entry that lists the key. *)
Lemma find_tgt_file_Some k idx name :
  find_tgt_file k idx = Some name
  <-> exists before keys after,
        idx = before ++ (name, keys) :: after
        /\ k ∈ keys
        /\ (forall name' keys', (name', keys') ∈ after -> k ∉ keys').
Proof.
  revert name. induction idx as [|[n ks] idx IH]; intros name.
  - split; [discriminate |]. intros (before & keys & after & E & _).
    now destruct before.
  - rewrite find_tgt_file_cons. split.
    + destruct (find_tgt_file k idx) as [later|] eqn:Hfind.
      * intros [= ->]. destruct (IH name) as [IH1 _].
        destruct (IH1 eq_refl) as (before & keys & after & -> & Hk & Hlast).
        exists ((n, ks) :: before), keys, after. now repeat split.
      * destruct (decide (k ∈ ks)) as [Hin|Hout]; [|discriminate].
        intros [= ->]. exists [], ks, idx. repeat split; [exact Hin |].
        now apply find_tgt_file_None.
    + intros (before & keys & after & E & Hk & Hlast).
      destruct before as [|e before]; cbn in E.
      * injection E as -> -> ->.
        replace (find_tgt_file k after) with (@None string)
          by (symmetry; now apply find_tgt_file_None).
        now rewrite decide_True.
      * injection E as <- ->.
        replace (find_tgt_file k (before ++ (name, keys) :: after))
          with (Some name); [reflexivity |].
        symmetry. apply IH. now exists before, keys, after.
Qed.

Lemma get_specific_object_eq k s :
  get_specific_object k s
  = match metadata_file (disk s) with
    | None => (Raise KeyError, s)
    | Some meta_dict =>
        match find_tgt_file k meta_dict with
        | None => (Raise KeyError, s)
        | Some tgt_file =>
            match pkl_files (disk s) !! tgt_file with
            | None => (Raise FileNotFoundError, s)
            | Some objects_dict =>
                match dict_get objects_dict k with
                | Some found => (Return found, s)
                | None => (Raise KeyError, s)
                end
            end
        end
    end.
Proof.
  unfold get_specific_object, bind, gets.
  destruct (metadata_file (disk s)) as [meta_dict|]; [|reflexivity].
  destruct (find_tgt_file k meta_dict) as [tgt_file|]; [|reflexivity].
  destruct (pkl_files (disk s) !! tgt_file) as [objects_dict|]; [|reflexivity].
  destruct (dict_get objects_dict k); reflexivity.
Qed.

Lemma index_None s : metadata_file (disk s) = None -> index s = [].
Proof. unfold index. now intros ->. Qed.

(** C8: [get_specific_object] raises the not-found error ([KeyError])
    exactly when the index document is missing or no entry lists the key;
    otherwise it returns, state untouched, the member under that key of the
    pickle named by the last entry that lists it. *)
Theorem get_specific_object_not_found_iff k s :
  blobs_match_index s ->
  (fst (get_specific_object k s) = Raise KeyError
   <-> metadata_file (disk s) = None
       \/ (forall name keys, (name, keys) ∈ index s -> k ∉ keys))
  /\ (fst (get_specific_object k s) <> Raise KeyError ->
      exists before name keys after d found,
        metadata_file (disk s) = Some (before ++ (name, keys) :: after)
        /\ k ∈ keys
        /\ (forall name' keys', (name', keys') ∈ after -> k ∉ keys')
        /\ pkl_files (disk s) !! name = Some d
        /\ dict_get d k = Some found
        /\ get_specific_object k s = (Return found, s)).
Proof.
  intros Hmatch. rewrite get_specific_object_eq. unfold blobs_match_index in Hmatch.
  unfold index in *.
  destruct (metadata_file (disk s)) as [meta_dict|];
    [|split; [split; [now left | reflexivity] | intros Hne; now elim Hne]].
  destruct (find_tgt_file k meta_dict) as [tgt_file|] eqn:Hfind.
  - apply find_tgt_file_Some in Hfind
      as (before & keys & after & -> & Hk & Hlast).
    destruct (Hmatch tgt_file keys) as (d & Hd & Hkeys);
      [apply elem_of_app; right; constructor |].
    rewrite Hd. destruct (dict_get_keys d k) as [found Hfound];
      [now rewrite Hkeys |].
    rewrite Hfound. split.
    + split; [discriminate |]. intros [?|Hnone]; [discriminate |].
      exfalso. apply (Hnone tgt_file keys); [|exact Hk].
      apply elem_of_app. right. constructor.
    + intros _. exists before, tgt_file, keys, after, d, found.
      now repeat split.
  - split; [|intros Hne; now elim Hne]. split; [|reflexivity].
    intros _. right. now apply find_tgt_file_None.
Qed.

End Lookup.

Lemma consistent_blobs_match_index {Obj Kw : Type} `{MetaClass Obj Kw}
    (s : State Obj) :
  consistent s -> blobs_match_index s.
Proof.
  intros Hs name keys Hin.
  destruct (index_describes_blobs s Hs name keys Hin) as (d & Hd & Hk & _).
  now exists d.
Qed.

Lemma test_run_consistent :
  consistent (snd (run_saves test_calls (test_store 1000 0))).
Proof. apply consistent_run_saves, consistent_init_overwrite. Qed.

Lemma get_specific_object_not_found_iff_witness :
  blobs_match_index (snd (run_saves test_calls (test_store 1000 0)))
  /\ fst (get_specific_object "9"
            (snd (run_saves test_calls (test_store 1000 0))))
     <> Raise KeyError
  /\ exists before name keys after d found,
       metadata_file (disk (snd (run_saves test_calls (test_store 1000 0))))
       = Some (before ++ (name, keys) :: after)
       /\ "9" ∈ keys
       /\ (forall name' keys', (name', keys') ∈ after -> "9" ∉ keys')
       /\ pkl_files (disk (snd (run_saves test_calls (test_store 1000 0))))
            !! name = Some d
       /\ dict_get d "9" = Some found
       /\ get_specific_object "9"
            (snd (run_saves test_calls (test_store 1000 0)))
          = (Return found, snd (run_saves test_calls (test_store 1000 0))).
Proof.
  assert (Hmatch : blobs_match_index
                     (snd (run_saves test_calls (test_store 1000 0))))
    by apply consistent_blobs_match_index, test_run_consistent.
  assert (Hfound : fst (get_specific_object "9"
                          (snd (run_saves test_calls (test_store 1000 0))))
                   <> Raise KeyError)
    by (vm_compute; discriminate).
  split; [exact Hmatch |]. split; [exact Hfound |].
  exact (proj2 (get_specific_object_not_found_iff "9" _ Hmatch) Hfound).
Defined.

(** ** Round trip *)

Section RoundTrip.

Context {Obj Kw : Type} `{MetaClass Obj Kw}.

Implicit Types (s : State Obj) (cs : list (candidate Obj Kw)).
Implicit Types (objs : list Obj) (k : string) (o : Obj).

(** After a commit, the lookup of a key that was new finds the pickle just
    written and, in it, the last object the batch had under that key. *)
Lemma get_specific_object_commit s objs1 o objs2 :
  consistent s ->
  key o ∉ obj_set (self s) ->
  (forall o', o' ∈ objs2 -> key o' <> key o) ->
  get_specific_object (key o)
    (commit (map key (accepted (obj_set (self s)) (objs1 ++ o :: objs2)))
       (store_all (accepted (obj_set (self s)) (objs1 ++ o :: objs2)) []) s)
  = (Return o,
     commit (map key (accepted (obj_set (self s)) (objs1 ++ o :: objs2)))
       (store_all (accepted (obj_set (self s)) (objs1 ++ o :: objs2)) []) s).
Proof.
  intros Hs Hnew Hlast.
  set (new := accepted (obj_set (self s)) (objs1 ++ o :: objs2)).
  set (os := store_all new []).
  assert (Hget : dict_get os (key o) = Some o).
  { subst os new. rewrite accepted_app. unfold accepted at 2.
    rewrite filter_cons_True by exact Hnew.
    apply store_all_get_last. intros o' Ho'.
    apply accepted_elem in Ho' as [_ Ho']. now apply Hlast. }
  assert (Hkey : key o ∈ dict_keys os).
  { apply store_all_keys_elem. right. apply list_elem_of_fmap_2.
    apply accepted_elem. split; [exact Hnew |].
    apply elem_of_app. right. constructor. }
  rewrite get_specific_object_eq. cbn [commit disk metadata_file pkl_files].
  destruct (find_tgt_file (key o)
              (dict_set (index s) (blob_name os) (dict_keys os)))
    as [tgt|] eqn:Hfind.
  - apply find_tgt_file_Some in Hfind as (before & keys & after & E & Hk & _).
    assert (Hin : (tgt, keys)
                    ∈ dict_set (index s) (blob_name os) (dict_keys os)).
    { rewrite E. apply elem_of_app. right. constructor. }
    apply (elem_of_dict_set _ _ _ _ _ (index_names_nodup s Hs)) in Hin
      as [[-> ->]|[Hne Hin]].
    + rewrite lookup_insert_eq, Hget. reflexivity.
    + exfalso. apply Hnew, (index_in_ledger s Hs), elem_of_index_keys. eauto.
  - exfalso.
    destruct (find_tgt_file_None (key o)
                (dict_set (index s) (blob_name os) (dict_keys os)))
      as [Hnone _].
    apply (Hnone Hfind (blob_name os) (dict_keys os)); [|exact Hkey].
    apply (elem_of_dict_set _ _ _ _ _ (index_names_nodup s Hs)). now left.
Qed.




End RoundTrip.


(** It fails as well once a later call has written its pickle under the
    name of the pickle that holds the object: after the batches of keys
    ["ab"; "c"] and ["a"; "bc"] the object saved under ["ab"] is gone. *)
Example saved_object_lost_after_name_clash :
  fst (run_saves clash_calls (test_store 1000 0)) = Return tt
  /\ fst (get_specific_object "ab"
            (snd (save_objects (Some batch_ab_c)
                    (at_time 1%Z (test_store 1000 0)))))
     = Return (RedShift.test_object "ab" 1)
  /\ fst (get_specific_object "ab" store_after_clash) = Raise KeyError.
Proof. repeat split; vm_compute; reflexivity. Qed.

(** And it fails on a store constructed over the files of another one whose
    keys hold a comma: the keys file of ["a,bc"] and ["a,b"] reads back as
    the keys ["a"], ["bc"], ["b"], so ["a,b"] counts as not seen, is
    accepted again, and the lookup returns the object saved first. *)
Example saved_object_not_returned_after_reload :
  (key (RedShift.test_object "a,b" 3)
     ∉ obj_set (self (at_time 6%Z store_reloaded_over_comma_keys)))
  /\ fst (save_objects (Some batch_with_comma_key)
            (at_time 6%Z store_reloaded_over_comma_keys))
     = Return tt
  /\ fst (get_specific_object "a,b"
            (snd (save_objects (Some batch_with_comma_key)
                    (at_time 6%Z store_reloaded_over_comma_keys))))
     = Return (RedShift.test_object "a,b" 2).
Proof.
  split; [apply (bool_decide_unpack _); vm_compute; exact I |].
  split; vm_compute; reflexivity.
Qed.

(** ** Resubmitted keys *)

Section Dedup.

Context {Obj Kw : Type} `{MetaClass Obj Kw}.

Implicit Types (s : State Obj) (cs : list (candidate Obj Kw)).
Implicit Types (objs : list Obj) (k : string) (o : Obj).




End Dedup.

(** ** Pickles and their names *)

Section Blobs.

Context {Obj Kw : Type} `{MetaClass Obj Kw}.

Implicit Types (s : State Obj) (cs : list (candidate Obj Kw)).
Implicit Types (objs : list Obj) (k name : string).

(** A call that writes a pickle commits, and the pickle is the dictionary
    of its accepted objects. *)
Lemma blob_written_Some cs s name :
  blob_written cs s = Some name ->
  exists objs,
    mapM to_object cs = Some objs
    /\ name = blob_name (store_all (accepted (obj_set (self s)) objs) [])
    /\ save_objects (Some cs) s
       = (Return tt,
          commit (map key (accepted (obj_set (self s)) objs))
            (store_all (accepted (obj_set (self s)) objs) []) s).
Proof.
  unfold blob_written. rewrite save_objects_eq, save_loop_eq.
  destruct (Z.of_nat (length cs) >? max_objects (self s))%Z; [discriminate |].
  destruct (mapM to_object cs) as [objs|]; [|discriminate].
  cbn [fst]. rewrite store_all_length.
  destruct (accepted (obj_set (self s)) objs) as [|o new] eqn:E;
    [discriminate |].
  intros [= <-]. exists objs. rewrite E. repeat split.
Qed.

(** One call writes one pickle at most and leaves the others alone. *)
Lemma save_objects_other_blobs cs s name :
  blob_written cs s <> Some name ->
  pkl_files (disk (snd (save_objects (Some cs) s))) !! name
  = pkl_files (disk s) !! name.
Proof.
  intros Hother. destruct (save_objects_state cs s)
    as [->|(objs & Hobjs & Hnew & Hsave)]; [reflexivity |].
  rewrite Hsave. cbn [snd commit disk pkl_files].
  apply lookup_insert_ne. intros E. apply Hother.
  rewrite (blob_written_commit _ _ _ Hobjs Hnew Hsave). now f_equal.
Qed.

Lemma run_saves_other_blobs (calls : list (Time * list (candidate Obj Kw)))
    s name :
  never_writes name calls s ->
  pkl_files (disk (snd (run_saves calls s))) !! name
  = pkl_files (disk s) !! name.
Proof.
  revert s. induction calls as [|[t cs] calls IH]; intros s Hnever;
    [reflexivity |].
  destruct Hnever as [Hother Hrest].
  pose proof (save_objects_other_blobs cs (at_time t s) name Hother) as Hstep.
  cbn [run_saves]. unfold bind, modify.
  destruct (save_objects (Some cs) (at_time t s)) as [[[]|e] s']; cbn in *.
  - now rewrite IH.
  - exact Hstep.
Qed.

(** C6, amended: of two successful [save_objects] calls that each write a
    pickle, the later one leaves the pickle of the earlier one as it was
    written, provided no call after the earlier one writes under its name;
    a call writes under the name [get_hash] gives its new keys. *)
Theorem earlier_blob_kept cs0 s0 s name
    (calls : list (Time * list (candidate Obj Kw))) s' :
  save_objects (Some cs0) s0 = (Return tt, s) ->
  blob_written cs0 s0 = Some name ->
  run_saves calls s = (Return tt, s') ->
  never_writes name calls s ->
  (exists objs,
     mapM to_object cs0 = Some objs
     /\ name = get_hash (dict_keys (store_all (accepted (obj_set (self s0)) objs) []))
               +:+ ".pkl"
     /\ pkl_files (disk s) !! name
        = Some (store_all (accepted (obj_set (self s0)) objs) []))
  /\ pkl_files (disk s') !! name = pkl_files (disk s) !! name.
Proof.
  intros Hsave Hname Hrun Hnever. split.
  - destruct (blob_written_Some _ _ _ Hname) as (objs & Hobjs & -> & Hcommit).
    exists objs. repeat split; [exact Hobjs |].
    rewrite Hsave in Hcommit. injection Hcommit as ->.
    cbn [commit disk pkl_files]. apply lookup_insert_eq.
  - replace s' with (snd (run_saves calls s)) by now rewrite Hrun.
    now apply run_saves_other_blobs.
Qed.

End Blobs.

(** C6 as stated fails: the new keys ["ab"; "c"] and ["a"; "bc"] hash to the
    same name, so the second call writes over the pickle of the first. *)
Lemma blob_rewritten_after_name_clash :
  fst (run_saves clash_calls (test_store 1000 0)) = Return tt
  /\ blob_written batch_ab_c (at_time 1%Z (test_store 1000 0))
     = Some "a9993e364706816aba3e25717850c26c9cd0d89d.pkl"
  /\ blob_written batch_a_bc
       (at_time 2%Z
          (snd (save_objects (Some batch_ab_c) (at_time 1%Z (test_store 1000 0)))))
     = Some "a9993e364706816aba3e25717850c26c9cd0d89d.pkl"
  /\ pkl_files (disk (snd (run_saves clash_calls (test_store 1000 0))))
       !! "a9993e364706816aba3e25717850c26c9cd0d89d.pkl"
     <> pkl_files
          (disk (snd (save_objects (Some batch_ab_c)
                        (at_time 1%Z (test_store 1000 0)))))
          !! "a9993e364706816aba3e25717850c26c9cd0d89d.pkl".
Proof.
  split; [vm_compute; reflexivity |].
  split; [vm_compute; reflexivity |].
  split; [vm_compute; reflexivity |].
  intros E. vm_compute in E. discriminate.
Qed.

Lemma earlier_blob_kept_witness :
  pkl_files (disk (snd (run_saves [(2%Z, batch_4_to_9)] store_after_first_batch)))
    !! "11904a4e8b77f6242e2d288705023adad00a9310.pkl"
  = pkl_files (disk store_after_first_batch)
      !! "11904a4e8b77f6242e2d288705023adad00a9310.pkl".
Proof.
  assert (Hsave : save_objects (Some batch_0_to_4)
                    (at_time 1%Z (test_store 1000 0))
                  = (Return tt, store_after_first_batch))
    by (apply returned_pair; vm_compute; reflexivity).
  assert (Hname : blob_written batch_0_to_4 (at_time 1%Z (test_store 1000 0))
                  = Some "11904a4e8b77f6242e2d288705023adad00a9310.pkl")
    by (vm_compute; reflexivity).
  assert (Hrun : run_saves [(2%Z, batch_4_to_9)] store_after_first_batch
                 = (Return tt,
                    snd (run_saves [(2%Z, batch_4_to_9)]
                           store_after_first_batch)))
    by (apply returned_pair; vm_compute; reflexivity).
  assert (Hnever : never_writes "11904a4e8b77f6242e2d288705023adad00a9310.pkl"
                     [(2%Z, batch_4_to_9)] store_after_first_batch).
  { split; [|exact I]. intros E. vm_compute in E. discriminate. }
  exact (proj2 (earlier_blob_kept _ _ _ _ _ _ Hsave Hname Hrun Hnever)).
Defined.

(** ** A saved object across later calls *)

Section AcrossCalls.

Context {Obj Kw : Type} `{MetaClass Obj Kw}.

Implicit Types (s : State Obj) (cs : list (candidate Obj Kw)).
Implicit Types (objs : list Obj) (k name : string) (o : Obj).
Implicit Types (calls : list (Time * list (candidate Obj Kw))).

(** A run in which every call returns is a run that goes on. *)
Lemma run_saves_all calls s s' :
  run_saves calls s = (Return tt, s') -> run_all_saves calls s = s'.
Proof.
  revert s. induction calls as [|[t cs] calls IH]; intros s.
  - now intros [= <-].
  - cbn [run_saves run_all_saves]. unfold bind, modify.
    destruct (save_objects (Some cs) (at_time t s)) as [[[]|e] s1]; cbn [snd].
    + apply IH.
    + discriminate.
Qed.

Lemma consistent_run_all_saves calls s :
  consistent s -> consistent (run_all_saves calls s).
Proof.
  revert s. induction calls as [|[t cs] calls IH]; intros s Hs; [exact Hs |].
  cbn [run_all_saves]. apply IH, consistent_save_objects.
  now apply consistent_at_time.
Qed.

(** In a consistent store the entry that lists a key leads the lookup to
    the object its pickle holds under that key. *)
Lemma get_specific_object_entry s k name (keys : list string)
    (dict : list (string * Obj)) o :
  consistent s ->
  (name, keys) ∈ index s -> k ∈ keys ->
  pkl_files (disk s) !! name = Some dict ->
  dict_get dict k = Some o ->
  get_specific_object k s = (Return o, s).
Proof.
  intros Hs Hin Hk Hd Ho.
  rewrite get_specific_object_eq. unfold index in Hin.
  destruct (metadata_file (disk s)) as [meta_dict|] eqn:Hmeta; [|inversion Hin].
  destruct (find_tgt_file k meta_dict) as [tgt|] eqn:Hfind.
  - apply find_tgt_file_Some in Hfind as (before & keys' & after & E & Hk' & _).
    assert (Hin' : (tgt, keys') ∈ index s).
    { unfold index. rewrite Hmeta, E. apply elem_of_app. right. constructor. }
    assert (tgt = name) as ->.
    { apply (index_keys_once s Hs k tgt keys' name keys); try assumption.
      unfold index. now rewrite Hmeta. }
    now rewrite Hd, Ho.
  - exfalso. destruct (find_tgt_file_None k meta_dict) as [Hnone _].
    exact (Hnone Hfind name keys Hin Hk).
Qed.







End AcrossCalls.




(** ** The keys file and its reload *)

Lemma split_nonempty (sep : ascii) (s : string) : split sep s <> [].
Proof.
  destruct s as [|c s]; simpl; [discriminate |].
  destruct (Ascii.eqb c sep); [discriminate |].
  destruct (split sep s); discriminate.
Qed.

Lemma split_comma_free (k : string) :
  has_comma k = false -> split "," k = [k].
Proof.
  induction k as [|c k IH]; simpl; [reflexivity |].
  destruct (Ascii.eqb c ","); [discriminate |].
  intros Hk. now rewrite (IH Hk).
Qed.

(** Splitting cuts at every comma: a comma between two texts separates
    their items. *)
Lemma split_app_comma (a b : string) :
  split "," (a +:+ "," +:+ b) = split "," a ++ split "," b.
Proof.
  induction a as [|c a IH].
  - reflexivity.
  - rewrite append_cons. simpl. rewrite IH.
    destruct (Ascii.eqb c ","); [reflexivity |].
    destruct (split "," a) as [|w ws] eqn:E; [|reflexivity].
    now apply split_nonempty in E.
Qed.

Lemma ledger_of_app (ks1 ks2 : list string) :
  ledger_of (ks1 ++ ks2) = ledger_of ks1 +:+ ledger_of ks2.
Proof. unfold ledger_of. now rewrite map_app, concat_in_order_app. Qed.

Lemma ledger_of_cons (k : string) (ks : list string) :
  ledger_of (k :: ks) = k +:+ "," +:+ ledger_of ks.
Proof. unfold ledger_of, concat_in_order. simpl. apply append_assoc. Qed.

(** What [_update_objects_on_disk] appends for a non-empty key list. *)
Lemma join_comma (ks : list string) :
  ks <> [] -> join "," ks +:+ "," = ledger_of ks.
Proof.
  induction ks as [|x [|y rest] IH]; intros Hne.
  - contradiction.
  - rewrite ledger_of_cons. cbn [join]. unfold ledger_of, concat_in_order.
    simpl. reflexivity.
  - change (join "," (x :: y :: rest))
      with (x +:+ "," +:+ join "," (y :: rest)).
    rewrite ledger_of_cons, <- IH by discriminate.
    now rewrite !append_assoc.
Qed.

(** Read back, the keys file gives the appended keys and, after the last
    comma, one empty item more. *)
Lemma split_ledger_of (ks : list string) :
  Forall (fun k => has_comma k = false) ks ->
  split "," (ledger_of ks) = ks ++ [""].
Proof.
  induction 1 as [|k ks Hk _ IH]; [reflexivity |].
  rewrite ledger_of_cons, split_app_comma, IH.
  now rewrite (split_comma_free k Hk).
Qed.

(** Text without a carriage return is read back as it was written. *)
Lemma universal_newlines_no_cr (s : string) :
  has_cr s = false -> universal_newlines s = s.
Proof.
  induction s as [|c s IH]; simpl; [reflexivity |].
  destruct (Ascii.eqb c "013"); [discriminate |].
  intros Hs. now rewrite (IH Hs).
Qed.

Lemma has_cr_app (a b : string) :
  has_cr (a +:+ b) = has_cr a || has_cr b.
Proof.
  induction a as [|c a IH]; [reflexivity |].
  rewrite append_cons. simpl. rewrite IH. now destruct (Ascii.eqb c "013").
Qed.

Lemma has_cr_ledger_of (ks : list string) :
  Forall (fun k => has_cr k = false) ks -> has_cr (ledger_of ks) = false.
Proof.
  induction 1 as [|k ks Hk _ IH]; [reflexivity |].
  rewrite ledger_of_cons, !has_cr_app, Hk, IH. reflexivity.
Qed.

Section Reload.

Context {Obj Kw : Type} `{MetaClass Obj Kw}.

Implicit Types (s : State Obj) (cs : list (candidate Obj Kw)).

Lemma ledger_tracks_commit s (objs : list Obj) :
  objs <> [] ->
  ledger_tracks s ->
  ledger_tracks (commit (map key objs) (store_all objs []) s).
Proof.
  intros Hne (ks & Htext & Hset & _). exists (ks ++ map key objs).
  cbn [commit ledger_text disk objs_in_disk self obj_set].
  repeat split; [| |discriminate].
  - fold (ledger_text s).
    rewrite append_assoc, join_comma by (destruct objs; [easy | discriminate]).
    now rewrite Htext, ledger_of_app.
  - rewrite list_to_set_app_L. now rewrite Hset.
Qed.

Lemma ledger_tracks_save_objects cs s :
  ledger_tracks s -> ledger_tracks (snd (save_objects (Some cs) s)).
Proof.
  intros Hs. destruct (save_objects_state cs s)
    as [->|(objs & _ & Hnew & ->)]; [exact Hs |].
  now apply ledger_tracks_commit.
Qed.

Lemma ledger_tracks_at_time (t : Time) s :
  ledger_tracks s -> ledger_tracks (at_time t s).
Proof. intros (ks & ? & ? & ?). now exists ks. Qed.

Lemma ledger_tracks_run_saves (calls : list (Time * list (candidate Obj Kw))) s :
  ledger_tracks s -> ledger_tracks (snd (run_saves calls s)).
Proof.
  revert s. induction calls as [|[t cs] calls IH]; intros s Hs; [exact Hs |].
  pose proof (ledger_tracks_save_objects cs (at_time t s)
                (ledger_tracks_at_time t s Hs)) as Hs'.
  cbn [run_saves]. unfold bind, modify.
  destruct (save_objects (Some cs) (at_time t s)) as [[[]|e] s']; cbn in *.
  - now apply IH.
  - exact Hs'.
Qed.

Lemma ledger_tracks_init_overwrite
    (meta_objects : option (list (candidate Obj Kw)))
    (max : Z) (d : Disk Obj) (now : Time) :
  ledger_tracks (snd (__init__ true meta_objects max d now)).
Proof.
  unfold __init__. cbn [objs_in_disk].
  set (s0 := {| disk := _; self := _; clock := now |}).
  assert (H0 : ledger_tracks s0) by (exists []; repeat split).
  destruct meta_objects as [cs|];
    [now apply ledger_tracks_save_objects | exact H0].
Qed.

(** A store constructed over the files another instance left, without
    [overwrite], sees every key that instance had seen, and the empty
    string besides, whether or not it was ever saved. *)
Lemma reload_obj_set s (max : Z) (now : Time) :
  ledger_tracks s ->
  objs_in_disk (disk s) <> None ->
  (forall k, k ∈ obj_set (self s) -> has_comma k = false) ->
  (forall k, k ∈ obj_set (self s) -> has_cr k = false) ->
  obj_set (self (snd (__init__ (Kw := Kw) false None max (disk s) now)))
  = obj_set (self s) ∪ {[""]}.
Proof.
  intros (ks & Htext & Hset & _) Hfile Hkeys Hcr.
  unfold __init__, ledger_text in *.
  destruct (objs_in_disk (disk s)) as [[content mtime]|]; [|contradiction].
  cbn. subst content.
  rewrite universal_newlines_no_cr, split_ledger_of.
  - rewrite list_to_set_app_L, Hset. set_solver.
  - apply Forall_forall. intros k Hk. apply Hkeys.
    rewrite <- Hset. now apply elem_of_list_to_set.
  - apply has_cr_ledger_of, Forall_forall. intros k Hk. apply Hcr.
    rewrite <- Hset. now apply elem_of_list_to_set.
Qed.

End Reload.

(** C7: the store of the test saves keys ["0".."4"]; its keys file then
    reads ["0,1,2,3,4,"], and a store constructed over it holds the empty
    string as a sixth seen key, which was never appended.  A keys file that
    is present and empty gives the set holding the empty string, not the
    empty set. *)
Theorem reloaded_obj_set_has_empty_key :
  objs_in_disk (disk store_after_first_batch) = Some ("0,1,2,3,4,", 1%Z)
  /\ obj_set (self store_after_first_batch)
     = list_to_set ["0"; "1"; "2"; "3"; "4"]
  /\ obj_set (self (snd (__init__ (Kw := list (string * RedShift.value))
                           false None 1000 (disk store_after_first_batch) 5%Z)))
     = list_to_set ["0"; "1"; "2"; "3"; "4"; ""]
  /\ obj_set (self (snd (__init__ (Kw := list (string * RedShift.value))
                           false None 1000
                           {| objs_in_disk := Some ("", 0%Z);
                              metadata_file := None;
                              pkl_files :=
                                (∅ : gmap string
                                       (list (string * RedShift.RedShiftCheckPointObject)));
                              stamps := Z.of_nat |}
                           5%Z)))
     = {[""]}.
Proof.
  split; [vm_compute; reflexivity |].
  split; [vm_compute; reflexivity |].
  split; [vm_compute; reflexivity |].
  vm_compute. reflexivity.
Qed.

(** ** A key repeated within one batch *)

Lemma filter_eq_once (k : string) (l : list string) :
  NoDup l -> k ∈ l -> length (filter (fun k' => k' = k) l) = 1%nat.
Proof.
  induction 1 as [|x l Hx Hnd IH]; intros Hin; [inversion Hin |].
  destruct (decide (x = k)) as [->|Hne].
  - rewrite filter_cons_True by reflexivity.
    replace (filter (fun k' => k' = k) l) with (@nil string); [reflexivity |].
    symmetry. apply elem_of_nil_inv. intros y Hy.
    apply list_elem_of_filter in Hy as [-> Hy]. contradiction.
  - rewrite filter_cons_False by exact Hne. apply IH.
    apply elem_of_cons in Hin as [?|?]; [congruence | assumption].
Qed.

Section RepeatedKey.

Context {Obj Kw : Type} `{MetaClass Obj Kw}.

Implicit Types (s : State Obj) (cs : list (candidate Obj Kw)).
Implicit Types (objs : list Obj) (d : list (string * Obj)) (k : string).

(** The keys of the dictionary are the keys put in, each at its first
    place. *)
Lemma store_all_keys objs d :
  dict_keys (store_all objs d)
  = dict_keys d
    ++ filter (fun k => k ∉ dict_keys d) (first_occurrences (map key objs)).
Proof.
  revert d. induction objs as [|o objs IH]; intros d.
  - simpl. now rewrite app_nil_r.
  - rewrite store_all_cons, IH, dict_keys_set. cbn [map first_occurrences].
    destruct (decide (key o ∈ dict_keys d)) as [Hin|Hout].
    + rewrite filter_cons_False by (intros Hn; now apply Hn).
      rewrite list_filter_filter. f_equal. apply list_filter_iff.
      intros x. split; [|tauto]. intros Hx. split; [exact Hx |].
      intros ->. contradiction.
    + rewrite filter_cons_True by exact Hout.
      rewrite list_filter_filter, <- app_assoc. cbn [app]. do 2 f_equal.
      apply list_filter_iff. intros x.
      rewrite elem_of_app, list_elem_of_singleton. tauto.
Qed.

Lemma store_all_keys_nil objs :
  dict_keys (store_all objs []) = first_occurrences (map key objs).
Proof.
  rewrite store_all_keys. cbn [dict_keys map app].
  induction (first_occurrences (map key objs)) as [|x l IH]; [reflexivity |].
  rewrite filter_cons_True by apply not_elem_of_nil. now rewrite IH.
Qed.

(** The dictionary holds, under each key, the last object put in with it. *)
Lemma store_all_get objs d k :
  dict_get (store_all objs d) k
  = match last (filter (fun o => key o = k) objs) with
    | Some o => Some o
    | None => dict_get d k
    end.
Proof.
  revert d. induction objs as [|o objs IH]; intros d; [reflexivity |].
  rewrite store_all_cons, IH.
  destruct (decide (key o = k)) as [<-|Hne].
  - rewrite filter_cons_True by reflexivity. rewrite last_cons.
    destruct (last _); [reflexivity | apply dict_get_set_eq].
  - rewrite filter_cons_False by exact Hne.
    destruct (last _); [reflexivity | now apply dict_get_set_ne].
Qed.

Lemma accepted_with_key (seen : gset string) objs k :
  k ∉ seen ->
  filter (fun o => key o = k) (accepted seen objs)
  = filter (fun o => key o = k) objs.
Proof.
  intros Hnew. unfold accepted. rewrite list_filter_filter.
  apply list_filter_iff. intros o. split; [tauto |].
  intros <-. now split.
Qed.

Lemma filter_map_key objs k :
  length (filter (fun k' => k' = k) (map key objs))
  = length (filter (fun o => key o = k) objs).
Proof.
  induction objs as [|o objs IH]; [reflexivity |]. cbn [map].
  destruct (decide (key o = k)) as [E|Hne].
  - rewrite !filter_cons_True by exact E. simpl. now rewrite IH.
  - rewrite !filter_cons_False by exact Hne. exact IH.
Qed.

(** C10: when one successful call has a key, not seen before, more than
    once in its batch, the pickle it writes holds the last of these objects
    under the key, the pickle is named from the key sequence without
    repeats, pickle and index entry list the key once, and the keys file is
    appended with the key as many times as the batch has it. *)
Theorem repeated_key_in_one_batch cs s s' objs k :
  save_objects (Some cs) s = (Return tt, s') ->
  mapM to_object cs = Some objs ->
  k ∉ obj_set (self s) ->
  (1 < length (filter (fun o => key o = k) objs))%nat ->
  exists o d,
    last (filter (fun o => key o = k) objs) = Some o
    /\ pkl_files (disk s')
         !! (get_hash (first_occurrences
                         (map key (accepted (obj_set (self s)) objs)))
             +:+ ".pkl")
       = Some d
    /\ dict_get d k = Some o
    /\ dict_keys d
       = first_occurrences (map key (accepted (obj_set (self s)) objs))
    /\ dict_get (index s')
         (get_hash (first_occurrences
                      (map key (accepted (obj_set (self s)) objs)))
          +:+ ".pkl")
       = Some (dict_keys d)
    /\ length (filter (fun k' => k' = k) (dict_keys d)) = 1%nat
    /\ ledger_text s'
       = (ledger_text s
          +:+ join "," (map key (accepted (obj_set (self s)) objs)))
         +:+ ","
    /\ length (filter (fun k' => k' = k)
                 (map key (accepted (obj_set (self s)) objs)))
       = length (filter (fun o => key o = k) objs).
Proof.
  intros Hsave Hobjs Hnew Hmany.
  destruct (last (filter (fun o => key o = k) objs)) as [o|] eqn:Hlast;
    [|apply last_None in Hlast; rewrite Hlast in Hmany; simpl in Hmany; lia].
  assert (Ho : o ∈ filter (fun o => key o = k) objs)
    by now apply last_Some_elem_of.
  apply list_elem_of_filter in Ho as [Hk Ho].
  assert (Hacc : o ∈ accepted (obj_set (self s)) objs)
    by (apply accepted_elem; split; [now rewrite Hk | exact Ho]).
  rewrite save_objects_eq, Hobjs in Hsave.
  destruct (Z.of_nat (length cs) >? max_objects (self s))%Z; [discriminate |].
  destruct (accepted (obj_set (self s)) objs) as [|x new] eqn:E;
    [inversion Hacc |].
  rewrite <- E in *. clear x new E. injection Hsave as <-.
  set (new := accepted (obj_set (self s)) objs) in *.
  pose proof (store_all_keys_nil new) as Hkeys.
  exists o, (store_all new []).
  cbn [commit disk pkl_files index metadata_file ledger_text objs_in_disk].
  unfold blob_name. rewrite Hkeys.
  split; [reflexivity |].
  split; [apply lookup_insert_eq |].
  split.
  { rewrite store_all_get. subst new. rewrite accepted_with_key by exact Hnew.
    now rewrite Hlast. }
  split; [reflexivity |].
  split; [apply dict_get_set_eq |].
  split.
  { apply filter_eq_once.
    - rewrite <- Hkeys. apply store_all_nodup. constructor.
    - rewrite <- Hkeys. apply store_all_keys_elem. right.
      rewrite <- Hk. now apply list_elem_of_fmap_2. }
  split; [reflexivity |].
  rewrite filter_map_key. subst new. now rewrite accepted_with_key.
Qed.

End RepeatedKey.

Lemma repeated_key_in_one_batch_witness :
  exists o d,
    last (filter (fun o => key o = "a")
            [RedShift.test_object "a" 1; RedShift.test_object "b" 2;
             RedShift.test_object "a" 3])
    = Some o
    /\ o = RedShift.test_object "a" 3
    /\ pkl_files
         (disk (snd (save_objects
                       (Some [test_candidate "a" 1; test_candidate "b" 2;
                              test_candidate "a" 3])
                       (test_store 1000 0))))
         !! (get_hash ["a"; "b"] +:+ ".pkl")
       = Some d
    /\ dict_get d "a" = Some o
    /\ dict_keys d = ["a"; "b"]
    /\ ledger_text
         (snd (save_objects
                 (Some [test_candidate "a" 1; test_candidate "b" 2;
                        test_candidate "a" 3])
                 (test_store 1000 0)))
       = "a,b,a,".
Proof.
  assert (Hsave :
    save_objects (Some [test_candidate "a" 1; test_candidate "b" 2;
                        test_candidate "a" 3]) (test_store 1000 0)
    = (Return tt,
       snd (save_objects (Some [test_candidate "a" 1; test_candidate "b" 2;
                                test_candidate "a" 3]) (test_store 1000 0))))
    by (apply returned_pair; vm_compute; reflexivity).
  assert (Hobjs :
    mapM to_object [test_candidate "a" 1; test_candidate "b" 2;
                    test_candidate "a" 3]
    = Some [RedShift.test_object "a" 1; RedShift.test_object "b" 2;
            RedShift.test_object "a" 3])
    by reflexivity.
  assert (Hnew : "a" ∉ obj_set (self (test_store 1000 0)))
    by (apply (bool_decide_unpack _); vm_compute; exact I).
  assert (Hmany :
    (1 < length (filter (fun o => key o = "a")
                   [RedShift.test_object "a" 1; RedShift.test_object "b" 2;
                    RedShift.test_object "a" 3]))%nat)
    by (vm_compute; lia).
  destruct (repeated_key_in_one_batch _ _ _ _ "a" Hsave Hobjs Hnew Hmany)
    as (o & d & Hlast & Hd & Hget & Hkeys & _ & _ & Htext & _).
  exists o, d. split; [exact Hlast |].
  split; [vm_compute in Hlast; now injection Hlast as <- |].
  split; [exact Hd |]. split; [exact Hget |].
  split; [exact Hkeys | exact Htext].
Defined.

(** A store constructed over the files of a consistent one, without
    [overwrite], is consistent too, as long as no key holds a comma or a
    carriage return. *)
Lemma consistent_reload {Obj Kw : Type} `{MetaClass Obj Kw}
    (s : State Obj) (max : Z) (now : Time) :
  consistent s ->
  ledger_tracks s ->
  (forall k, k ∈ obj_set (self s) -> has_comma k = false) ->
  (forall k, k ∈ obj_set (self s) -> has_cr k = false) ->
  consistent (snd (__init__ (Kw := Kw) false None max (disk s) now)).
Proof.
  intros Hs Hl Hkeys Hcr.
  assert (Hsub : index_keys s
                   ⊆ obj_set (self (snd (__init__ (Kw := Kw) false None max
                                           (disk s) now)))).
  { destruct (objs_in_disk (disk s)) as [file|] eqn:Hfile.
    - rewrite (reload_obj_set s max now Hl);
        [|rewrite Hfile; discriminate | exact Hkeys | exact Hcr].
      intros k Hk. apply elem_of_union. left.
      now apply (index_in_ledger s Hs).
    - destruct Hl as (ks & _ & Hset & Hnil). rewrite (Hnil Hfile) in Hset.
      pose proof (index_in_ledger s Hs) as Hin. rewrite <- Hset in Hin.
      intros k Hk. apply Hin in Hk. set_solver. }
  destruct Hs as [Hnames Hblobs Hdom Honce _].
  unfold __init__ in *. cbn [save_objects ret snd] in *.
  split; assumption.
Qed.

(** ** The repository's test, run on the model

    [setUpClass] constructs the store with the batch of keys ["0".."4"];
    [test_add_objects_with_same_keys] then saves keys ["4".."9"]. *)

Example test_setup_index :
  fst (__init__ true (Some batch_0_to_4) 1000 empty_disk 1%Z) = Return tt
  /\ index (snd (__init__ true (Some batch_0_to_4) 1000 empty_disk 1%Z))
     = [("11904a4e8b77f6242e2d288705023adad00a9310.pkl",
         ["0"; "1"; "2"; "3"; "4"])]
  /\ ledger_text (snd (__init__ true (Some batch_0_to_4) 1000 empty_disk 1%Z))
     = "0,1,2,3,4,".
Proof. repeat split; vm_compute; reflexivity. Qed.

Example test_add_objects_with_same_keys :
  fst (run_saves test_calls (test_store 1000 0)) = Return tt
  /\ index (snd (run_saves test_calls (test_store 1000 0)))
     = [("11904a4e8b77f6242e2d288705023adad00a9310.pkl",
         ["0"; "1"; "2"; "3"; "4"]);
        ("f2231d2871e690a2995704f7a297bd7bc64be720.pkl",
         ["5"; "6"; "7"; "8"; "9"])]
  /\ ledger_text (snd (run_saves test_calls (test_store 1000 0)))
     = "0,1,2,3,4,5,6,7,8,9,".
Proof. repeat split; vm_compute; reflexivity. Qed.

Example test_last_modified :
  last_modified (self (test_store 1000 0)) = 0%Z
  /\ last_modified (self store_after_first_batch) = 1%Z
  /\ last_modified (self (snd (run_saves test_calls (test_store 1000 0)))) = 2%Z.
Proof. repeat split; vm_compute; reflexivity. Qed.

Example test_get_specific_object :
  fst (get_specific_object "9" (snd (run_saves test_calls (test_store 1000 0))))
  = Return (RedShift.test_object "9" 29)
  /\ fst (get_specific_object "100"
            (snd (run_saves test_calls (test_store 1000 0))))
     = Raise KeyError.
Proof. split; vm_compute; reflexivity. Qed.

Example test_get_all_objects_info :
  exists info,
    fst (return_all_objects_info
           (snd (run_saves test_calls (test_store 1000 0))))
    = Return info
    /\ length info = 2%nat.
Proof. eexists. split; vm_compute; reflexivity. Qed.

Example test_file_not_found :
  (exists objects,
     fst (return_objects_for
            {| name_of := "f2231d2871e690a2995704f7a297bd7bc64be720.pkl";
               name_is_file_name := eq_refl |}
            (snd (run_saves test_calls (test_store 1000 0))))
     = Return objects
     /\ length objects = 5%nat)
  /\ fst (return_objects_for
            {| name_of := "non_existent_file.pkl";
               name_is_file_name := eq_refl |}
            (snd (run_saves test_calls (test_store 1000 0))))
     = Raise FileNotFoundError.
Proof.
  split; [eexists; split; vm_compute; reflexivity | vm_compute; reflexivity].
Qed.

(** Constructing with [overwrite] over the files of the test leaves nothing
    of them. *)
Example test_overwrite :
  objs_in_disk
    (disk (snd (__init__ (Kw := list (string * RedShift.value)) true None 1000
                  (disk (snd (run_saves test_calls (test_store 1000 0)))) 9%Z)))
  = None
  /\ pkl_files
       (disk (snd (__init__ (Kw := list (string * RedShift.value)) true None
                     1000 (disk (snd (run_saves test_calls (test_store 1000 0))))
                     9%Z)))
     = ∅
  /\ fst (return_all_objects_info
            (snd (__init__ (Kw := list (string * RedShift.value)) true None 1000
                    (disk (snd (run_saves test_calls (test_store 1000 0))))
                    9%Z)))
     = Return [].
Proof. repeat split; reflexivity. Qed.

(** After a reload the empty key counts as seen: an object saved under it is
    skipped, and the lookup does not find it. *)
Example empty_key_skipped_after_reload :
  fst (run_saves [(6%Z, [test_candidate "" 7])]
         (snd (__init__ false None 1000 (disk store_after_first_batch) 5%Z)))
  = Return tt
  /\ fst (get_specific_object ""
            (snd (run_saves [(6%Z, [test_candidate "" 7])]
                    (snd (__init__ false None 1000
                            (disk store_after_first_batch) 5%Z)))))
     = Raise KeyError
  /\ fst (get_specific_object ""
            (snd (run_saves [(6%Z, [test_candidate "" 7])]
                    (test_store 1000 0))))
     = Return (RedShift.test_object "" 7).
Proof. repeat split; vm_compute; reflexivity. Qed.

Example get_hash_test_blob :
  get_hash ["5"; "6"; "7"; "8"; "9"] = "f2231d2871e690a2995704f7a297bd7bc64be720".
Proof. vm_compute. reflexivity. Qed.

Example sha1_abc : get_hash ["abc"] = "a9993e364706816aba3e25717850c26c9cd0d89d".
Proof. vm_compute. reflexivity. Qed.

Example sha1_empty : get_hash [] = "da39a3ee5e6b4b0d3255bfef95601890afd80709".
Proof. vm_compute. reflexivity. Qed.

Example sha1_two_blocks :
  get_hash (repeat "a" 70) = "ed6c69d9e8b4373af86303dfaa3528dfbc129902".
Proof. vm_compute. reflexivity. Qed.

Example sha1_two_byte_char :
  Hashlib.hexdigest (encode_utf8 (String (ascii_of_nat 233) ""))
  = "bf15be717ac1b080b4f1c456692825891ff5073d".
Proof. vm_compute. reflexivity. Qed.

(** * More of the code *)

(** ** [get_hash] and [get_guid] *)

Lemma get_hash_concat_witness :
  concat_in_order ["ab"; "c"] = concat_in_order ["a"; "bc"]
  /\ get_hash ["ab"; "c"] = get_hash ["a"; "bc"].
Proof.
  split; [reflexivity |].
  exact (get_hash_concat ["ab"; "c"] ["a"; "bc"] eq_refl).
Defined.

(** A digest of [get_hash] is forty characters long, each of them a digit
    or a letter from [a] to [f], whatever strings are hashed. *)
Theorem get_hash_digest_format (iterable : list string) :
  String.length (get_hash iterable) = 40%nat
  /\ Forall (fun c => is_hex_digit c = true)
       (list_ascii_of_string (get_hash iterable)).
Proof.
  unfold get_hash. split.
  - apply hexdigest_length.
  - apply hexdigest_is_hex.
Qed.

Section FrameFacts.

Context {F : Type}.

Variable float_of_int : Z -> F.

Variable str_float : F -> string.

Implicit Types (rows : DataFrame F) (cols : list (string * dtype)).
Implicit Types (row : list (pyobj F)) (labels : list string).

Lemma get_guid_loop_eq (series : list (list (string * pyobj F)))
    (col_name str_cols : string) :
  get_guid_loop str_float series col_name str_cols
  = match mapM (fun labelled => dict_get labelled col_name) series with
    | Some cells =>
        Return (str_cols +:+ concat_in_order (map (py_str str_float) cells))
    | None => Raise KeyError
    end.
Proof.
  revert str_cols.
  induction series as [|labelled series IH]; intros str_cols.
  - cbn. now rewrite append_nil_r.
  - cbn [get_guid_loop mapM].
    destruct (dict_get labelled col_name) as [value|];
      [|reflexivity].
    rewrite IH. cbn [mbind option_bind].
    destruct (mapM _ series) as [cells|]; [|reflexivity].
    cbn [mbind option_bind mret option_ret map].
    unfold concat_in_order. cbn [fold_right]. now rewrite append_assoc.
Qed.

(** The series of a row holds, under each label, the cell of the row,
    turned to the common dtype. *)
Lemma dict_get_combine_map (f : pyobj F -> pyobj F) labels row
    (col_name : string) :
  dict_get (combine labels (map f row)) col_name
  = f <$> dict_get (combine labels row) col_name.
Proof.
  revert row. induction labels as [|label labels IH]; intros [|value row];
    try reflexivity.
  cbn [map combine dict_get].
  destruct (String.eqb col_name label); [reflexivity | apply IH].
Qed.

Lemma iterrows_column rows (col_name : string) :
  mapM (fun labelled => dict_get labelled col_name)
    (iterrows float_of_int rows)
  = map (upcast float_of_int (common_dtype (columns rows)))
      <$> column rows col_name.
Proof.
  unfold iterrows, column.
  induction (data rows) as [|row rest IH]; [reflexivity |].
  cbn [map mapM]. rewrite dict_get_combine_map, IH.
  destruct (dict_get (combine (map fst (columns rows)) row) col_name);
    [|reflexivity].
  cbn. now destruct (mapM _ rest).
Qed.

Lemma row_ok_length cols row :
  row_ok cols row = true -> length row = length cols.
Proof.
  revert row. induction cols as [|[label dt] cols IH]; intros [|value row];
    cbn; try discriminate; [reflexivity |].
  intros Hok. apply andb_prop in Hok as [_ Hok]. now rewrite (IH row Hok).
Qed.

Lemma dict_get_combine_Some labels row (col_name : string) :
  length row = length labels -> col_name ∈ labels ->
  is_Some (dict_get (combine labels row) col_name).
Proof.
  revert row. induction labels as [|label labels IH]; intros [|value row];
    cbn; intros Hlen Hin; try discriminate; [inversion Hin |].
  destruct (String.eqb_spec col_name label) as [->|Hne]; [eauto |].
  apply IH; [congruence |].
  apply elem_of_cons in Hin as [?|?]; [contradiction | assumption].
Qed.

Lemma dict_get_combine_None labels row (col_name : string) :
  col_name ∉ labels -> dict_get (combine labels row) col_name = None.
Proof.
  intros Hout. apply dict_get_None. intros Hin. apply Hout.
  unfold dict_keys in Hin. apply list_elem_of_fmap in Hin as ([l v] & -> & Hin).
  apply list_elem_of_In, in_combine_l in Hin. now apply list_elem_of_In.
Qed.

(** In a row of the table, the cell under a label is of the dtype of the
    label's column. *)
Lemma row_ok_cell cols row (col_name : string) (dt : dtype) (value : pyobj F) :
  NoDup (map fst cols) ->
  row_ok cols row = true ->
  (col_name, dt) ∈ cols ->
  dict_get (combine (map fst cols) row) col_name = Some value ->
  cell_ok dt value = true.
Proof.
  revert row. induction cols as [|[label dt'] cols IH]; intros [|v row];
    cbn [map fst combine dict_get row_ok]; intros Hnd Hok Hin Hget;
    try discriminate.
  apply andb_prop in Hok as [Hcell Hok]. apply NoDup_cons in Hnd as [Hl Hnd].
  destruct (String.eqb_spec col_name label) as [->|Hne].
  - injection Hget as <-.
    apply elem_of_cons in Hin as [[= <-]|Hin]; [exact Hcell |].
    exfalso. apply Hl. change label with (fst (label, dt)).
    now apply list_elem_of_fmap_2.
  - apply (IH row); try assumption.
    apply elem_of_cons in Hin as [[= ? ?]|Hin]; [contradiction | exact Hin].
Qed.

Lemma frame_ok_inv rows :
  frame_ok rows = true ->
  NoDup (map fst (columns rows))
  /\ Forall (fun row => row_ok (columns rows) row = true) (data rows).
Proof.
  unfold frame_ok. intros Hok. apply andb_prop in Hok as [Hnd Hrows].
  split; [now apply bool_decide_eq_true in Hnd |].
  apply Forall_forall. intros row Hrow.
  apply (proj1 (forallb_forall _ _) Hrows). now apply list_elem_of_In.
Qed.

Lemma column_Some rows (col_name : string) :
  frame_ok rows = true ->
  col_name ∈ map fst (columns rows) ->
  exists cells, column rows col_name = Some cells.
Proof.
  intros Hok Hin. apply frame_ok_inv in Hok as [_ Hrows].
  assert (Hsome : is_Some (column rows col_name)); [|now destruct Hsome; eauto].
  apply mapM_is_Some. eapply Forall_impl; [exact Hrows |].
  intros row Hrow. cbn. apply dict_get_combine_Some; [|exact Hin].
  rewrite length_map. now apply row_ok_length.
Qed.

(** The values [get_guid] hashes are those of the column as [iterrows]
    yields them: on a table with distinct labels and a column [col_name],
    [get_guid] is [get_hash] of the column's cells, turned to the common
    dtype of the table and then to strings, in row order.  They are the
    stored cells unless the common dtype is [float64]; the integers of an
    [int64] column beside a [float64] column are hashed as floats. *)
Theorem get_guid_is_get_hash_of_column rows (col_name : string) :
  frame_ok rows = true ->
  col_name ∈ map fst (columns rows) ->
  exists cells,
    column rows col_name = Some cells
    /\ length cells = length (data rows)
    /\ get_guid float_of_int str_float rows col_name
       = Return (get_hash
                   (map (py_str str_float)
                      (map (upcast float_of_int (common_dtype (columns rows)))
                         cells)))
    /\ (common_dtype (columns rows) <> Float64 ->
        get_guid float_of_int str_float rows col_name
        = Return (get_hash (map (py_str str_float) cells)))
    /\ (common_dtype (columns rows) = Float64 ->
        (col_name, Int64) ∈ columns rows ->
        exists ints,
          cells = map PyInt ints
          /\ get_guid float_of_int str_float rows col_name
             = Return (get_hash
                         (map (fun z => str_float (float_of_int z)) ints))).
Proof.
  intros Hok Hin. destruct (column_Some rows col_name Hok Hin) as [cells Hcol].
  assert (Hguid : get_guid float_of_int str_float rows col_name
                  = Return (get_hash
                              (map (py_str str_float)
                                 (map (upcast float_of_int
                                         (common_dtype (columns rows)))
                                    cells)))).
  { unfold get_guid, get_hash.
    rewrite get_guid_loop_eq, iterrows_column, Hcol, join_empty_sep.
    reflexivity. }
  exists cells. split; [exact Hcol |].
  split.
  { unfold column in Hcol. apply mapM_Some, Forall2_length in Hcol.
    now symmetry. }
  split; [exact Hguid |]. split.
  - intros Hdt. rewrite Hguid.
    assert (E : map (upcast float_of_int (common_dtype (columns rows))) cells
                = cells).
    { rewrite <- (map_id cells) at 2. apply map_ext. intros value.
      destruct (common_dtype (columns rows)); try reflexivity. contradiction. }
    now rewrite E.
  - intros Hdt Hint. apply frame_ok_inv in Hok as [Hnd Hrows].
    assert (Hcells : Forall (fun value => exists z, value = PyInt z) cells).
    { unfold column in Hcol. apply mapM_Some in Hcol.
      apply Forall_forall. intros value Hvalue.
      apply list_elem_of_lookup in Hvalue as [i Hi].
      destruct (Forall2_lookup_r _ _ _ _ _ Hcol Hi) as (row & Hrow & Hget).
      assert (Hrow_ok : row_ok (columns rows) row = true).
      { apply (proj1 (Forall_forall _ _) Hrows).
        apply list_elem_of_lookup. eauto. }
      pose proof (row_ok_cell _ _ _ _ _ Hnd Hrow_ok Hint Hget) as Hcell.
      destruct value as [str|z|f]; try discriminate. now exists z. }
    assert (Hints : exists ints, cells = map PyInt ints).
    { clear Hcol Hguid. induction Hcells as [|value cells [z ->] _ [ints ->]].
      - now exists [].
      - now exists (z :: ints). }
    destruct Hints as [ints ->]. exists ints. split; [reflexivity |].
    rewrite Hguid, Hdt, !map_map. reflexivity.
Qed.

(** [get_guid] raises [KeyError] exactly when the table has a row and
    [col_name] is none of its labels; on a table without rows it returns
    the digest of the empty string, whatever the label. *)
Theorem get_guid_key_error_iff rows (col_name : string) :
  frame_ok rows = true ->
  (get_guid float_of_int str_float rows col_name = Raise KeyError
   <-> data rows <> [] /\ col_name ∉ map fst (columns rows))
  /\ (data rows = [] ->
      get_guid float_of_int str_float rows col_name = Return (get_hash [])).
Proof.
  intros Hok. split.
  - destruct (decide (col_name ∈ map fst (columns rows))) as [Hin|Hout].
    + destruct (get_guid_is_get_hash_of_column rows col_name Hok Hin)
        as (cells & _ & _ & -> & _).
      split; [discriminate | now intros [_ ?]].
    + unfold get_guid, iterrows.
      destruct (data rows) as [|row rest].
      * split; [discriminate | now intros [? _]].
      * cbn [map get_guid_loop]. rewrite dict_get_combine_None by exact Hout.
        split; [now intros _ | reflexivity].
  - intros Hnil. unfold get_guid, iterrows. rewrite Hnil. reflexivity.
Qed.

End FrameFacts.

Lemma get_guid_is_get_hash_of_column_witness :
  get_guid whole_float_of_int whole_float_str catalogue_rows "specObjID"
  = Return (get_hash ["12.0"; "3.0"])
  /\ get_guid whole_float_of_int whole_float_str labelled_rows "specObjID"
     = Return (get_hash ["12"; "3"]).
Proof.
  split.
  - destruct (get_guid_is_get_hash_of_column whole_float_of_int whole_float_str
                catalogue_rows "specObjID" eq_refl)
      as (cells & Hcol & _ & Hguid & _).
    + apply (bool_decide_unpack _). vm_compute. exact I.
    + injection Hcol as <-. exact Hguid.
  - destruct (get_guid_is_get_hash_of_column whole_float_of_int whole_float_str
                labelled_rows "specObjID" eq_refl)
      as (cells & Hcol & _ & _ & Hguid & _).
    + apply (bool_decide_unpack _). vm_compute. exact I.
    + injection Hcol as <-. apply Hguid. discriminate.
Defined.

Lemma get_guid_key_error_iff_witness :
  get_guid whole_float_of_int whole_float_str catalogue_rows "objID"
  = Raise KeyError.
Proof.
  apply (proj1 (get_guid_key_error_iff whole_float_of_int whole_float_str
                  catalogue_rows "objID" eq_refl)).
  split; [discriminate |].
  apply (bool_decide_unpack _). vm_compute. exact I.
Defined.

(** ** The SciDrive polling loop *)

Section Polling.

Variables (directoryList : nat -> list string) (is_deleted : bool).
Variables (CASJOBS_CONTAINER tgt localFilePath : string).
Variables (max_tries : Z) (verbose : bool).

Let poll (fuel : nat) (count : Z) (calls : nat) : option (list event) :=
  poll_loop fuel directoryList is_deleted CASJOBS_CONTAINER tgt localFilePath
    max_tries verbose count calls.

Let found : list event :=
  [DirectoryList CASJOBS_CONTAINER; Download tgt localFilePath; Delete tgt;
   PrintDownloaded is_deleted].

Let gave_up : list event :=
  [DirectoryList CASJOBS_CONTAINER; Print "could not download file"].

Lemma poll_loop_found (i : nat) :
  forall (fuel : nat) (count : Z) (calls : nat),
    (i < fuel)%nat ->
    ((0 < i)%nat -> (count + Z.of_nat i <= max_tries)%Z) ->
    lists_target tgt (directoryList (calls + i)) = true ->
    (forall j, (j < i)%nat ->
               lists_target tgt (directoryList (calls + j)) = false) ->
    poll fuel count calls
    = Some (waiting_rounds i CASJOBS_CONTAINER verbose ++ found).
Proof.
  unfold poll, lists_target.
  induction i as [|i IH]; intros fuel count calls Hfuel Hcount Hat Hbefore.
  - destruct fuel as [|fuel]; [lia |]. cbn [poll_loop waiting_rounds app].
    rewrite Nat.add_0_r in Hat. now rewrite Hat.
  - destruct fuel as [|fuel]; [lia |]. cbn [poll_loop waiting_rounds].
    pose proof (Hbefore O ltac:(lia)) as H0. rewrite Nat.add_0_r in H0.
    rewrite H0.
    destruct (Z.gtb_spec (count + 1) max_tries) as [Hgt|_]; [lia |].
    rewrite (IH fuel (count + 1)%Z (S calls)).
    + now rewrite <- app_assoc.
    + lia.
    + intros _. lia.
    + now replace (S calls + i)%nat with (calls + S i)%nat by lia.
    + intros j Hj.
      replace (S calls + j)%nat with (calls + S j)%nat by lia.
      apply Hbefore. lia.
Qed.

Lemma poll_loop_gave_up (m : nat) :
  forall (fuel : nat) (count : Z) (calls : nat),
    (m < fuel)%nat ->
    Z.to_nat (max_tries - count) = m ->
    (forall j, (j <= m)%nat ->
               lists_target tgt (directoryList (calls + j)) = false) ->
    poll fuel count calls
    = Some (waiting_rounds m CASJOBS_CONTAINER verbose ++ gave_up).
Proof.
  unfold poll, lists_target.
  induction m as [|m IH]; intros fuel count calls Hfuel Hleft Hnone;
    (destruct fuel as [|fuel]; [lia |]); cbn [poll_loop waiting_rounds];
    pose proof (Hnone O ltac:(lia)) as H0; rewrite Nat.add_0_r in H0;
    rewrite H0.
  - destruct (Z.gtb_spec (count + 1) max_tries) as [_|Hle]; [reflexivity | lia].
  - destruct (Z.gtb_spec (count + 1) max_tries) as [Hgt|_]; [lia |].
    rewrite (IH fuel (count + 1)%Z (S calls)).
    + now rewrite <- app_assoc.
    + lia.
    + lia.
    + intros j Hj.
      replace (S calls + j)%nat with (calls + S j)%nat by lia.
      apply Hnone. lia.
Qed.

(** With enough fuel the loop ends, after no more listings than tries are
    left, and downloads once at most. *)
Lemma poll_loop_bounds (fuel : nat) :
  forall (count : Z) (calls : nat),
    (Z.to_nat (max_tries - count) < fuel)%nat ->
    exists trace,
      poll fuel count calls = Some trace
      /\ (listings trace <= S (Z.to_nat (max_tries - count)))%nat
      /\ (slept trace <= 10 * Z.of_nat (Z.to_nat (max_tries - count)))%Z
      /\ (0 <= slept trace)%Z
      /\ (length (downloads trace) <= 1)%nat.
Proof.
  unfold poll.
  induction fuel as [|fuel IH]; intros count calls Hfuel; [lia |].
  cbn [poll_loop].
  destruct (existsb _ (directoryList calls)).
  - eexists. split; [reflexivity |]. cbn. repeat split; lia.
  - destruct (Z.gtb_spec (count + 1) max_tries) as [Hgt|Hle].
    + eexists. split; [reflexivity |]. cbn. repeat split; lia.
    + destruct (IH (count + 1)%Z (S calls)) as (trace & -> & Hl & Hs & Hs0 & Hd);
        [lia |].
      eexists. split; [reflexivity |].
      replace (Z.to_nat (max_tries - count))
        with (S (Z.to_nat (max_tries - (count + 1)))) by lia.
      unfold waiting_round. destruct verbose; cbn; repeat split; lia.
Qed.

End Polling.

(** [_download_from_scidrive] always comes to an end: it lists the container
    at most [max_tries + 1] times (once when [max_tries] is negative), sleeps
    at most ten seconds per try, and downloads at most one file. *)
Theorem download_from_scidrive_bounds (CASJOBS_CONTAINER : string)
    (uname : option string) (directoryList : nat -> list string)
    (is_deleted : bool) (table_name save_to : string) (max_tries : Z)
    (verbose : bool) :
  exists trace,
    _download_from_scidrive CASJOBS_CONTAINER uname directoryList is_deleted
      table_name save_to max_tries verbose
    = Some trace
    /\ (listings trace <= S (Z.to_nat max_tries))%nat
    /\ (0 <= slept trace <= 10 * Z.of_nat (Z.to_nat max_tries))%Z
    /\ (length (downloads trace) <= 1)%nat.
Proof.
  unfold _download_from_scidrive.
  destruct (poll_loop_bounds directoryList is_deleted CASJOBS_CONTAINER
              (tgt_file_path CASJOBS_CONTAINER table_name uname)
              (local_file_path save_to table_name) max_tries verbose
              (S (Z.to_nat max_tries)) 0%Z O)
    as (trace & Hrun & Hl & Hs & Hs0 & Hd).
  - rewrite Z.sub_0_r. lia.
  - rewrite Z.sub_0_r in Hl, Hs. exists trace. repeat split; assumption.
Qed.

(** When the target shows up in the listing of try [i], within the tries
    allowed, and in none before, the function waits [i] rounds, then
    downloads the target to [save_to/table_name.csv] and deletes it from
    SciDrive: one download, one deletion, nothing after. *)
Theorem download_from_scidrive_found (CASJOBS_CONTAINER : string)
    (uname : option string) (directoryList : nat -> list string)
    (is_deleted : bool) (table_name save_to : string) (max_tries : Z)
    (verbose : bool) (i : nat) :
  (i <= Z.to_nat max_tries)%nat ->
  lists_target (tgt_file_path CASJOBS_CONTAINER table_name uname)
    (directoryList i) = true ->
  (forall j, (j < i)%nat ->
     lists_target (tgt_file_path CASJOBS_CONTAINER table_name uname)
       (directoryList j) = false) ->
  _download_from_scidrive CASJOBS_CONTAINER uname directoryList is_deleted
    table_name save_to max_tries verbose
  = Some (waiting_rounds i CASJOBS_CONTAINER verbose
          ++ [DirectoryList CASJOBS_CONTAINER;
              Download (tgt_file_path CASJOBS_CONTAINER table_name uname)
                (save_to +:+ "/" +:+ table_name +:+ ".csv");
              Delete (tgt_file_path CASJOBS_CONTAINER table_name uname);
              PrintDownloaded is_deleted]).
Proof.
  intros Hi Hat Hbefore. unfold _download_from_scidrive.
  apply poll_loop_found.
  - lia.
  - intros Hpos. lia.
  - exact Hat.
  - exact Hbefore.
Qed.

(** When none of the listings of the tries allowed holds the target, the
    function waits [max_tries] rounds, prints that it could not download the
    file, and downloads and deletes nothing. *)
Theorem download_from_scidrive_gave_up (CASJOBS_CONTAINER : string)
    (uname : option string) (directoryList : nat -> list string)
    (is_deleted : bool) (table_name save_to : string) (max_tries : Z)
    (verbose : bool) :
  (forall j, (j <= Z.to_nat max_tries)%nat ->
     lists_target (tgt_file_path CASJOBS_CONTAINER table_name uname)
       (directoryList j) = false) ->
  _download_from_scidrive CASJOBS_CONTAINER uname directoryList is_deleted
    table_name save_to max_tries verbose
  = Some (waiting_rounds (Z.to_nat max_tries) CASJOBS_CONTAINER verbose
          ++ [DirectoryList CASJOBS_CONTAINER;
              Print "could not download file"]).
Proof.
  intros Hnone. unfold _download_from_scidrive.
  apply poll_loop_gave_up.
  - lia.
  - now rewrite Z.sub_0_r.
  - exact Hnone.
Qed.

Lemma download_from_scidrive_found_witness :
  _download_from_scidrive "c" (Some "u") listing_from_third true "t" "data"
    10 true
  = Some [DirectoryList "c"; Print "Waiting"; Sleep 10;
          DirectoryList "c"; Print "Waiting"; Sleep 10;
          DirectoryList "c"; Download "c/t_u.csv" "data/t.csv";
          Delete "c/t_u.csv"; PrintDownloaded true].
Proof.
  apply (download_from_scidrive_found "c" (Some "u") listing_from_third true
           "t" "data" 10 true 2).
  - vm_compute. lia.
  - reflexivity.
  - intros j Hj. destruct j as [|[|j]]; [reflexivity | reflexivity | lia].
Defined.

Lemma download_from_scidrive_gave_up_witness :
  _download_from_scidrive "c" (Some "u") (fun _ => ["c/other.csv"]) true "t"
    "data" 2 false
  = Some [DirectoryList "c"; Sleep 10; DirectoryList "c"; Sleep 10;
          DirectoryList "c"; Print "could not download file"].
Proof.
  apply (download_from_scidrive_gave_up "c" (Some "u")
           (fun _ => ["c/other.csv"]) true "t" "data" 2 false).
  intros j _. reflexivity.
Defined.

(** ** File names of the pickles *)

Lemma string_length_append (a b : string) :
  String.length (a +:+ b) = (String.length a + String.length b)%nat.
Proof.
  induction a as [|c a IH]; [reflexivity |].
  rewrite append_cons. simpl. now rewrite IH.
Qed.

Lemma list_ascii_of_string_append (a b : string) :
  list_ascii_of_string (a +:+ b)
  = list_ascii_of_string a ++ list_ascii_of_string b.
Proof.
  induction a as [|c a IH]; [reflexivity |].
  rewrite append_cons. simpl. now rewrite IH.
Qed.

Lemma hex_digit_plain (c : ascii) :
  is_hex_digit c = true ->
  negb (Ascii.eqb c "/") && negb (Ascii.eqb c "000") = true
  /\ length (encode_char c) = 1%nat.
Proof.
  destruct c as [[] [] [] [] [] [] [] []]; intros Hc;
    try discriminate Hc; split; reflexivity.
Qed.

Lemma encode_utf8_length_hex (s : string) :
  Forall (fun c => is_hex_digit c = true) (list_ascii_of_string s) ->
  length (encode_utf8 s) = String.length s.
Proof.
  induction s as [|c s IH]; [reflexivity |].
  cbn [list_ascii_of_string encode_utf8 String.length]. intros Hs.
  apply Forall_cons in Hs as [Hc Hs].
  rewrite length_app, (proj2 (hex_digit_plain c Hc)), (IH Hs). reflexivity.
Qed.

(** A digest followed by [.pkl] is a file name. *)
Lemma is_file_name_hashed (keys : list string) :
  is_file_name (get_hash keys +:+ ".pkl") = true.
Proof.
  pose proof (hexdigest_length (encode_utf8 (join "" keys))) as Hlen.
  pose proof (hexdigest_is_hex (encode_utf8 (join "" keys))) as Hhex.
  unfold get_hash. cbv zeta.
  set (h := Hashlib.hexdigest (encode_utf8 (join "" keys))) in *.
  assert (Hne : forall other, (String.length other < 44)%nat ->
                  negb (String.eqb (h +:+ ".pkl") other) = true).
  { intros other Hother. apply negb_true_iff, String.eqb_neq. intros E.
    apply (f_equal String.length) in E.
    rewrite string_length_append, Hlen in E. simpl in E. lia. }
  unfold is_file_name.
  rewrite !Hne by (simpl; lia). cbn [andb].
  apply andb_true_intro. split.
  - rewrite list_ascii_of_string_append, forallb_app.
    apply andb_true_intro. split; [|reflexivity].
    apply forallb_forall. intros c Hc.
    apply hex_digit_plain.
    apply (proj1 (Forall_forall _ _) Hhex). now apply list_elem_of_In.
  - rewrite encode_utf8_app, length_app, (encode_utf8_length_hex h Hhex), Hlen.
    reflexivity.
Qed.

(** ** More on the checkpoint store *)

Section StoreMore.

Context {Obj Kw : Type} `{MetaClass Obj Kw}.

Implicit Types (s : State Obj) (cs : list (candidate Obj Kw)).
Implicit Types (objs : list Obj) (k name : string).

Lemma accepted_nil_iff (seen : gset string) objs :
  accepted seen objs = [] <-> forall o, o ∈ objs -> key o ∈ seen.
Proof.
  split.
  - intros E o Ho. destruct (decide (key o ∈ seen)) as [Hin|Hout];
      [exact Hin |].
    assert (Hacc : o ∈ accepted seen objs) by (apply accepted_elem; now split).
    rewrite E in Hacc. inversion Hacc.
  - intros Hall. apply elem_of_nil_inv. intros o Ho.
    apply accepted_elem in Ho as [Hout Ho]. exact (Hout (Hall o Ho)).
Qed.

Lemma obj_set_with_batch (seen : gset string) objs :
  seen ∪ list_to_set (map key (accepted seen objs))
  = seen ∪ list_to_set (map key objs).
Proof.
  apply set_eq. intros k. rewrite !elem_of_union, !elem_of_list_to_set.
  rewrite accepted_keys. destruct (decide (k ∈ seen)); tauto.
Qed.

(** When [save_objects] returns, every candidate was well formed and the
    batch within the threshold; all keys of the batch are seen from then
    on; the watermark is the time of the call if the batch brought a new
    key, the keys file then holds the accepted keys after its old text and
    has the time of the file system at its last write; and otherwise
    nothing at all has changed. *)
Theorem save_objects_returns cs s s' :
  save_objects (Some cs) s = (Return tt, s') ->
  exists objs,
    mapM to_object cs = Some objs
    /\ (Z.of_nat (length cs) <= max_objects (self s))%Z
    /\ obj_set (self s') = obj_set (self s) ∪ list_to_set (map key objs)
    /\ max_objects (self s') = max_objects (self s)
    /\ ((exists o, o ∈ objs /\ key o ∉ obj_set (self s)) ->
        last_modified (self s') = clock s
        /\ objs_in_disk (disk s')
           = Some ((ledger_text s
                    +:+ join "," (map key (accepted (obj_set (self s)) objs)))
                   +:+ ",", stamps (disk s) 1%nat))
    /\ ((forall o, o ∈ objs -> key o ∈ obj_set (self s)) -> s' = s).
Proof.
  rewrite save_objects_eq.
  destruct (Z.gtb_spec (Z.of_nat (length cs)) (max_objects (self s)))
    as [Hbig|Hfits]; [discriminate |].
  destruct (mapM to_object cs) as [objs|]; [|discriminate].
  intros Hsave. exists objs. split; [reflexivity |]. split; [exact Hfits |].
  destruct (accepted (obj_set (self s)) objs) as [|o new] eqn:E.
  - injection Hsave as <-.
    pose proof (proj1 (accepted_nil_iff _ _) E) as Hseen.
    split; [|split; [reflexivity |split; [|reflexivity]]].
    + apply set_eq. intros k. rewrite elem_of_union, elem_of_list_to_set.
      split; [now left |]. intros [Hk|Hk]; [exact Hk |].
      apply list_elem_of_fmap in Hk as (o & -> & Ho). now apply Hseen.
    + intros (o & Ho & Hnew). elim Hnew. now apply Hseen.
  - rewrite <- E in Hsave |- *. injection Hsave as <-.
    cbn [commit self obj_set last_modified max_objects disk objs_in_disk].
    split; [apply obj_set_with_batch |]. split; [reflexivity |].
    split; [intros _; split; reflexivity |].
    intros Hseen. apply accepted_nil_iff in Hseen. congruence.
Qed.

Lemma extends_refl s : extends s s.
Proof.
  repeat split; try done. exists "". now rewrite append_nil_r.
Qed.

Lemma extends_trans (s1 s2 s3 : State Obj) :
  extends s1 s2 -> extends s2 s3 -> extends s1 s3.
Proof.
  intros (Hk & [a Ha] & Hp & Hn & Hm) (Hk' & [b Hb] & Hp' & Hn' & Hm').
  repeat split.
  - set_solver.
  - exists (a +:+ b). now rewrite Hb, Ha, append_assoc.
  - intros name Hname. now apply Hp', Hp.
  - intros name Hname. now apply Hn', Hn.
  - congruence.
Qed.

Lemma extends_commit (ks : list string) (d : list (string * Obj)) s :
  extends s (commit ks d s).
Proof.
  repeat split; cbn [commit self obj_set disk pkl_files max_objects].
  - set_solver.
  - exists (join "," ks +:+ ","). unfold ledger_text at 1. cbn.
    apply append_assoc.
  - intros name Hname.
    destruct (decide (blob_name d = name)) as [->|Hne].
    + rewrite lookup_insert_eq. eauto.
    + now rewrite lookup_insert_ne.
  - intros name Hname. unfold index at 1. cbn. apply dict_keys_set_elem.
    now right.
Qed.

Lemma extends_save_objects cs s : extends s (snd (save_objects (Some cs) s)).
Proof.
  destruct (save_objects_state cs s) as [->|(objs & _ & _ & ->)];
    [apply extends_refl | apply extends_commit].
Qed.

(** The store only ever adds: across any run of [save_objects] calls,
    whatever each of them returns or raises, no seen key is forgotten, the
    keys file is only appended to, no pickle is removed, no index entry
    disappears, and the threshold stays. *)
Theorem run_saves_only_adds
    (calls : list (Time * list (candidate Obj Kw))) s :
  extends s (snd (run_saves calls s)).
Proof.
  revert s. induction calls as [|[t cs] calls IH]; intros s;
    [apply extends_refl |].
  assert (Hstep : extends s (snd (save_objects (Some cs) (at_time t s)))).
  { apply (extends_trans s (at_time t s)); [|apply extends_save_objects].
    repeat split; try done. exists "". now rewrite append_nil_r. }
  cbn [run_saves]. unfold bind, modify.
  destruct (save_objects (Some cs) (at_time t s)) as [[[]|e] s'];
    cbn [snd] in *; [|exact Hstep].
  exact (extends_trans _ _ _ Hstep (IH s')).
Qed.

End StoreMore.

Section StoreReads.

Context {Obj Kw : Type} `{MetaClass Obj Kw}.

Implicit Types (s : State Obj) (cs : list (candidate Obj Kw)).
Implicit Types (objs : list Obj) (k name : string).

(** In a consistent store, what [get_specific_object] returns has the key
    that was asked for; the key is one [save_objects] treats as seen, and
    the lookup changes nothing. *)
Theorem found_object_has_the_key k s (o : Obj) s' :
  consistent s ->
  get_specific_object k s = (Return o, s') ->
  key o = k /\ k ∈ obj_set (self s) /\ s' = s.
Proof.
  intros Hs. rewrite get_specific_object_eq.
  destruct (metadata_file (disk s)) as [meta_dict|] eqn:Hmeta; [|discriminate].
  destruct (find_tgt_file k meta_dict) as [tgt|] eqn:Hfind; [|discriminate].
  destruct (pkl_files (disk s) !! tgt) as [d|] eqn:Hd; [|discriminate].
  destruct (dict_get d k) as [found|] eqn:Hget; [|discriminate].
  intros [= -> <-].
  apply find_tgt_file_Some in Hfind as (before & keys & after & E & Hk & _).
  assert (Hin : (tgt, keys) ∈ index s).
  { unfold index. rewrite Hmeta, E. apply elem_of_app. right. constructor. }
  destruct (index_describes_blobs s Hs tgt keys Hin)
    as (d' & Hd' & _ & _ & Hkeyed).
  assert (d' = d) as -> by congruence.
  repeat split.
  - apply Hkeyed. now apply dict_get_elem.
  - apply (index_in_ledger s Hs), elem_of_index_keys. eauto.
Qed.

Lemma return_all_objects_info_eq s :
  return_all_objects_info s = (Return (index s), s).
Proof.
  unfold return_all_objects_info, bind, gets, index.
  destruct (metadata_file (disk s)); reflexivity.
Qed.

Lemma return_objects_for_eq (f : file_name) s :
  return_objects_for f s
  = if String.eqb (name_of f) "metadata.json" then
      match metadata_file (disk s) with
      | None => (Raise FileNotFoundError, s)
      | Some _ => (Raise UnpicklingError, s)
      end
    else
      match pkl_files (disk s) !! name_of f with
      | Some objects => (Return objects, s)
      | None => (Raise FileNotFoundError, s)
      end.
Proof.
  unfold return_objects_for, bind, gets.
  destruct (String.eqb (name_of f) "metadata.json").
  - destruct (metadata_file (disk s)); reflexivity.
  - destruct (pkl_files (disk s) !! name_of f); reflexivity.
Qed.

Lemma hashed_names_commit (ks : list string) (dict : list (string * Obj)) s :
  hashed_names s -> hashed_names (commit ks dict s).
Proof.
  intros Hs name Hname. unfold index in Hname. cbn in Hname.
  apply dict_keys_set_elem in Hname as [->|Hname]; [|now apply Hs].
  now exists (dict_keys dict).
Qed.

Lemma hashed_names_save_objects cs s :
  hashed_names s -> hashed_names (snd (save_objects (Some cs) s)).
Proof.
  intros Hs. destruct (save_objects_state cs s) as [->|(objs & _ & _ & ->)];
    [exact Hs | now apply hashed_names_commit].
Qed.

Lemma hashed_names_run_all_saves
    (calls : list (Time * list (candidate Obj Kw))) s :
  hashed_names s -> hashed_names (run_all_saves calls s).
Proof.
  revert s. induction calls as [|[t cs] calls IH]; intros s Hs; [exact Hs |].
  cbn [run_all_saves]. apply IH.
  exact (hashed_names_save_objects cs (at_time t s) Hs).
Qed.

Lemma hashed_names_init_overwrite
    (meta_objects : option (list (candidate Obj Kw)))
    (max : Z) (d : Disk Obj) (now : Time) :
  hashed_names (snd (__init__ true meta_objects max d now)).
Proof.
  unfold __init__. cbn [objs_in_disk].
  set (s0 := {| disk := _; self := _; clock := now |}).
  assert (H0 : hashed_names s0) by (intros name Hname; inversion Hname).
  destruct meta_objects as [cs|];
    [now apply hashed_names_save_objects | exact H0].
Qed.

Lemma ledger_tracks_run_all_saves
    (calls : list (Time * list (candidate Obj Kw))) s :
  ledger_tracks s -> ledger_tracks (run_all_saves calls s).
Proof.
  revert s. induction calls as [|[t cs] calls IH]; intros s Hs; [exact Hs |].
  cbn [run_all_saves]. apply IH, ledger_tracks_save_objects.
  now apply ledger_tracks_at_time.
Qed.

(** On a store constructed with [overwrite] and used through
    [save_objects], the readers agree.  The names [return_all_objects_info]
    lists are file names, none of them [metadata.json];
    [return_objects_for] finds a file, among the file names other than
    [metadata.json], exactly for the listed ones; on [metadata.json] it
    raises [UnpicklingError] once the index exists; for a listed name it
    returns a dictionary with the keys listed for that name, and
    [get_specific_object] on any of these keys returns the object that
    dictionary holds under it. *)
Theorem readers_agree
    (meta_objects : option (list (candidate Obj Kw))) (max : Z)
    (d : Disk Obj) (now : Time)
    (calls : list (Time * list (candidate Obj Kw))) s :
  run_all_saves calls (snd (__init__ true meta_objects max d now)) = s ->
  exists info,
    return_all_objects_info s = (Return info, s)
    /\ (forall name, name ∈ dict_keys info ->
          is_file_name name = true /\ name <> "metadata.json")
    /\ (forall f : file_name,
          name_of f <> "metadata.json" ->
          (fst (return_objects_for f s) = Raise FileNotFoundError
           <-> name_of f ∉ dict_keys info))
    /\ (forall f : file_name,
          name_of f = "metadata.json" ->
          fst (return_objects_for f s)
          = match metadata_file (disk s) with
            | Some _ => Raise UnpicklingError
            | None => Raise FileNotFoundError
            end)
    /\ (forall (f : file_name) keys,
          (name_of f, keys) ∈ info ->
          exists objects,
            return_objects_for f s = (Return objects, s)
            /\ dict_keys objects = keys
            /\ forall k, k ∈ keys ->
                 exists o, dict_get objects k = Some o
                           /\ get_specific_object k s = (Return o, s)).
Proof.
  intros <-.
  set (s := run_all_saves calls (snd (__init__ true meta_objects max d now))).
  assert (Hs : consistent s)
    by apply consistent_run_all_saves, consistent_init_overwrite.
  assert (Hh : hashed_names s)
    by apply hashed_names_run_all_saves, hashed_names_init_overwrite.
  assert (Hnames : forall name, name ∈ dict_keys (index s) ->
                     is_file_name name = true /\ name <> "metadata.json").
  { intros name Hname. destruct (Hh name Hname) as [keys ->].
    split; [apply is_file_name_hashed |].
    intros E. apply (f_equal String.length) in E.
    rewrite string_length_append in E. unfold get_hash in E.
    rewrite hexdigest_length in E. discriminate. }
  exists (index s). split; [apply return_all_objects_info_eq |].
  split; [exact Hnames |]. split; [|split].
  - intros f Hf. rewrite return_objects_for_eq.
    destruct (String.eqb_spec (name_of f) "metadata.json") as [E|_];
      [contradiction |].
    destruct (pkl_files (disk s) !! name_of f) as [objects|] eqn:Hfile.
    + split; [discriminate |]. intros Hout. elim Hout.
      apply (blobs_in_index s Hs). rewrite Hfile. eauto.
    + split; [|reflexivity]. intros _ Hin.
      apply list_elem_of_fmap in Hin as ([name' keys] & E & Hin).
      simpl in E. subst name'.
      destruct (index_describes_blobs s Hs _ keys Hin) as (dict & Hd & _).
      congruence.
  - intros f Hf. rewrite return_objects_for_eq, Hf. cbn [String.eqb].
    replace ("metadata.json" =? "metadata.json")%string with true
      by (symmetry; apply String.eqb_refl).
    now destruct (metadata_file (disk s)).
  - intros f keys Hin.
    destruct (Hnames (name_of f)) as [_ Hne];
      [now apply elem_dict_keys in Hin |].
    destruct (index_describes_blobs s Hs _ keys Hin)
      as (dict & Hd & Hkeys & _ & _).
    exists dict. rewrite return_objects_for_eq, Hd.
    destruct (String.eqb_spec (name_of f) "metadata.json") as [E|_];
      [contradiction |].
    split; [reflexivity |]. split; [exact Hkeys |].
    intros k Hk. destruct (dict_get_keys dict k) as [o Ho];
      [now rewrite Hkeys |].
    exists o. split; [exact Ho |].
    now apply (get_specific_object_entry s k (name_of f) keys dict).
Qed.

Lemma accepted_empty objs : accepted (∅ : gset string) objs = objs.
Proof.
  unfold accepted. induction objs as [|o objs IH]; [reflexivity |].
  rewrite filter_cons_True by apply not_elem_of_empty. now rewrite IH.
Qed.

(** A store constructed with [overwrite] and a first batch of well-formed
    candidates, not empty and within the threshold, holds exactly that
    batch, whatever the directory held before: one pickle, named from the
    keys without repeats, one index entry listing these keys, the keys file
    with every key of the batch, stamped by the file system, the keys as
    seen set, and the time of construction as watermark. *)
Theorem init_with_first_batch cs objs (max : Z) (d : Disk Obj) (now : Time) :
  mapM to_object cs = Some objs ->
  objs <> [] ->
  (Z.of_nat (length cs) <= max)%Z ->
  fst (__init__ true (Some cs) max d now) = Return tt
  /\ index (snd (__init__ true (Some cs) max d now))
     = [(get_hash (first_occurrences (map key objs)) +:+ ".pkl",
         first_occurrences (map key objs))]
  /\ pkl_files (disk (snd (__init__ true (Some cs) max d now)))
     = {[ get_hash (first_occurrences (map key objs)) +:+ ".pkl"
          := store_all objs [] ]}
  /\ objs_in_disk (disk (snd (__init__ true (Some cs) max d now)))
     = Some (join "," (map key objs) +:+ ",", stamps d 1%nat)
  /\ obj_set (self (snd (__init__ true (Some cs) max d now)))
     = list_to_set (map key objs)
  /\ last_modified (self (snd (__init__ true (Some cs) max d now))) = now.
Proof.
  intros Hobjs Hne Hfits. unfold __init__. cbn [objs_in_disk].
  rewrite save_objects_eq. cbn [self max_objects obj_set].
  destruct (Z.gtb_spec (Z.of_nat (length cs)) max) as [Hbig|_]; [lia |].
  rewrite Hobjs, accepted_empty.
  destruct objs as [|o rest]; [contradiction |].
  cbn [fst snd commit disk self index metadata_file pkl_files objs_in_disk
       obj_set last_modified ledger_text clock dict_set].
  unfold blob_name. rewrite store_all_keys_nil, insert_empty.
  repeat split. apply union_empty_l_L.
Qed.

(** Every state the store reaches from a construction with [overwrite], by
    any sequence of [save_objects] calls, whether the run stops at the
    first call that raises or goes on after it, is consistent: each index
    entry names a pickle that holds exactly the listed keys, no key is in
    two pickles, every pickle is indexed and every indexed key is seen; the
    keys file holds the seen keys; and every pickle is named by a digest of
    [get_hash]. *)
Theorem store_invariants
    (meta_objects : option (list (candidate Obj Kw))) (max : Z)
    (d : Disk Obj) (now : Time)
    (calls : list (Time * list (candidate Obj Kw))) :
  consistent (run_all_saves calls (snd (__init__ true meta_objects max d now)))
  /\ ledger_tracks
       (run_all_saves calls (snd (__init__ true meta_objects max d now)))
  /\ hashed_names
       (run_all_saves calls (snd (__init__ true meta_objects max d now)))
  /\ consistent
       (snd (run_saves calls (snd (__init__ true meta_objects max d now))))
  /\ ledger_tracks
       (snd (run_saves calls (snd (__init__ true meta_objects max d now)))).
Proof.
  split; [|split; [|split; [|split]]].
  - apply consistent_run_all_saves, consistent_init_overwrite.
  - apply ledger_tracks_run_all_saves, ledger_tracks_init_overwrite.
  - apply hashed_names_run_all_saves, hashed_names_init_overwrite.
  - apply consistent_run_saves, consistent_init_overwrite.
  - apply ledger_tracks_run_saves, ledger_tracks_init_overwrite.
Qed.

(** A new instance over the files of a store that has saved something,
    constructed without [overwrite] and without a batch, resumes it: the
    constructor returns, the files are untouched, the threshold is the new
    one, the watermark is the modification time of the keys file (the file
    system's, not the watermark the store had), the seen keys are those the
    store had and the empty string, provided no key holds a comma or a
    carriage return; and the new instance is consistent. *)
Theorem reload_resumes
    (meta_objects : option (list (candidate Obj Kw))) (max : Z)
    (d : Disk Obj) (now : Time)
    (calls : list (Time * list (candidate Obj Kw))) s
    (content : string) (mtime : Time) (max' : Z) (now' : Time) :
  run_all_saves calls (snd (__init__ true meta_objects max d now)) = s ->
  objs_in_disk (disk s) = Some (content, mtime) ->
  (forall k, k ∈ obj_set (self s) -> has_comma k = false /\ has_cr k = false) ->
  fst (__init__ (Kw := Kw) false None max' (disk s) now') = Return tt
  /\ disk (snd (__init__ (Kw := Kw) false None max' (disk s) now')) = disk s
  /\ max_objects (self (snd (__init__ (Kw := Kw) false None max' (disk s) now')))
     = max'
  /\ last_modified
       (self (snd (__init__ (Kw := Kw) false None max' (disk s) now')))
     = mtime
  /\ obj_set (self (snd (__init__ (Kw := Kw) false None max' (disk s) now')))
     = obj_set (self s) ∪ {[""]}
  /\ consistent (snd (__init__ (Kw := Kw) false None max' (disk s) now')).
Proof.
  intros <-.
  set (s := run_all_saves calls (snd (__init__ true meta_objects max d now))).
  intros Hfile Hkeys.
  assert (Hs : consistent s)
    by apply consistent_run_all_saves, consistent_init_overwrite.
  assert (Hl : ledger_tracks s)
    by apply ledger_tracks_run_all_saves, ledger_tracks_init_overwrite.
  assert (Hsome : objs_in_disk (disk s) <> None) by now rewrite Hfile.
  split; [reflexivity |]. split; [reflexivity |].
  split; [unfold __init__; now rewrite Hfile |].
  split; [unfold __init__; now rewrite Hfile |].
  split.
  - apply reload_obj_set; try assumption; intros k Hk; now apply Hkeys.
  - apply consistent_reload; try assumption; intros k Hk; now apply Hkeys.
Qed.

End StoreReads.

Lemma save_objects_returns_witness :
  exists objs,
    mapM to_object batch_4_to_9 = Some objs
    /\ obj_set (self (snd (save_objects (Some batch_4_to_9)
                             (at_time 2%Z store_after_first_batch))))
       = obj_set (self (at_time 2%Z store_after_first_batch))
         ∪ list_to_set (map key objs).
Proof.
  assert (Hsave :
    save_objects (Some batch_4_to_9) (at_time 2%Z store_after_first_batch)
    = (Return tt,
       snd (save_objects (Some batch_4_to_9)
              (at_time 2%Z store_after_first_batch))))
    by (apply returned_pair; vm_compute; reflexivity).
  destruct (save_objects_returns _ _ _ Hsave) as (objs & Hobjs & _ & Hset & _).
  exists objs. split; [exact Hobjs | exact Hset].
Defined.

Lemma store_after_test_consistent : consistent store_after_test.
Proof. apply consistent_run_saves, consistent_init_overwrite. Qed.

Lemma found_object_has_the_key_witness :
  key (RedShift.test_object "9" 29) = "9"
  /\ "9" ∈ obj_set (self store_after_test)
  /\ snd (get_specific_object "9" store_after_test) = store_after_test.
Proof.
  apply (found_object_has_the_key "9" store_after_test
           (RedShift.test_object "9" 29)).
  - exact store_after_test_consistent.
  - apply returned_pair. vm_compute. reflexivity.
Defined.

Lemma readers_agree_witness :
  exists info,
    return_all_objects_info
      (run_all_saves test_calls (snd (__init__ true None 1000 empty_disk 0%Z)))
    = (Return info,
       run_all_saves test_calls (snd (__init__ true None 1000 empty_disk 0%Z)))
    /\ forall name, name ∈ dict_keys info ->
         is_file_name name = true /\ name <> "metadata.json".
Proof.
  destruct (readers_agree None 1000 empty_disk 0%Z test_calls _ eq_refl)
    as (info & Hinfo & Hnames & _).
  exists info. split; [exact Hinfo | exact Hnames].
Defined.

Lemma init_with_first_batch_witness :
  index (snd (__init__ true (Some batch_0_to_4) 1000 empty_disk 1%Z))
  = [(get_hash (first_occurrences (map key objects_0_to_4)) +:+ ".pkl",
      first_occurrences (map key objects_0_to_4))]
  /\ last_modified
       (self (snd (__init__ true (Some batch_0_to_4) 1000 empty_disk 1%Z)))
     = 1%Z.
Proof.
  assert (Hobjs : mapM to_object batch_0_to_4 = Some objects_0_to_4)
    by reflexivity.
  assert (Hne : objects_0_to_4 <> []) by discriminate.
  assert (Hfits : (Z.of_nat (length batch_0_to_4) <= 1000)%Z)
    by (vm_compute; discriminate).
  destruct (init_with_first_batch batch_0_to_4 objects_0_to_4 1000 empty_disk
              1%Z Hobjs Hne Hfits)
    as (_ & Hindex & _ & _ & _ & Hmod).
  split; [exact Hindex | exact Hmod].
Defined.

Lemma reload_resumes_witness :
  last_modified
    (self (snd (__init__ (Kw := list (string * RedShift.value)) false None 500
                  (disk (run_all_saves test_calls
                           (snd (__init__ true None 1000 empty_disk 0%Z))))
                  9%Z)))
  = 3%Z
  /\ obj_set
       (self (snd (__init__ (Kw := list (string * RedShift.value)) false None
                     500
                     (disk (run_all_saves test_calls
                              (snd (__init__ true None 1000 empty_disk 0%Z))))
                     9%Z)))
     = obj_set
         (self (run_all_saves test_calls
                  (snd (__init__ true None 1000 empty_disk 0%Z))))
       ∪ {[""]}.
Proof.
  assert (Hfile :
    objs_in_disk
      (disk (run_all_saves test_calls
               (snd (__init__ true None 1000 empty_disk 0%Z))))
    = Some ("0,1,2,3,4,5,6,7,8,9,", 3%Z))
    by (vm_compute; reflexivity).
  assert (Hkeys : forall k,
    k ∈ obj_set
          (self (run_all_saves test_calls
                   (snd (__init__ true None 1000 empty_disk 0%Z)))) ->
    has_comma k = false /\ has_cr k = false).
  { assert (E : obj_set
                  (self (run_all_saves test_calls
                           (snd (__init__ true None 1000 empty_disk 0%Z))))
                = list_to_set
                    ["0"; "1"; "2"; "3"; "4"; "5"; "6"; "7"; "8"; "9"])
      by (vm_compute; reflexivity).
    rewrite E. intros k Hk. apply elem_of_list_to_set in Hk.
    repeat (apply elem_of_cons in Hk as [->|Hk]; [now split |]).
    inversion Hk. }
  destruct (reload_resumes None 1000 empty_disk 0%Z test_calls _
              "0,1,2,3,4,5,6,7,8,9," 3%Z 500 9%Z eq_refl Hfile Hkeys)
    as (_ & _ & _ & Hmod & Hset & _).
  split; [exact Hmod | exact Hset].
Defined.

(** Saving the same batch again, at any later time, is accepted and
    changes nothing: a batch that was saved can be retried safely. *)
Theorem save_objects_again {Obj Kw : Type} `{MetaClass Obj Kw}
    (cs : list (candidate Obj Kw)) (s s1 : State Obj) (t : Time) :
  save_objects (Some cs) s = (Return tt, s1) ->
  save_objects (Some cs) (at_time t s1) = (Return tt, at_time t s1).
Proof.
  intros Hsave.
  assert (Hs1 : max_objects (self s1) = max_objects (self s)
                /\ forall objs, mapM to_object cs = Some objs ->
                     forall o, o ∈ objs -> key o ∈ obj_set (self s1)).
  { rewrite save_objects_eq in Hsave.
    destruct (Z.of_nat (length cs) >? max_objects (self s))%Z; [discriminate |].
    destruct (mapM to_object cs) as [objs|]; [|discriminate].
    destruct (accepted (obj_set (self s)) objs) as [|x new] eqn:E.
    - injection Hsave as <-. split; [reflexivity |].
      intros objs' [= <-]. now apply accepted_nil_iff.
    - rewrite <- E in Hsave. injection Hsave as <-. split; [reflexivity |].
      intros objs' [= <-] o Ho. cbn [commit self obj_set].
      destruct (decide (key o ∈ obj_set (self s))) as [Hin|Hout].
      + apply elem_of_union. now left.
      + apply elem_of_union. right. apply elem_of_list_to_set.
        apply list_elem_of_fmap_2, accepted_elem. now split. }
  destruct Hs1 as [Hmax Hseen].
  rewrite save_objects_eq in Hsave |- *. cbn [at_time self].
  rewrite Hmax.
  destruct (Z.of_nat (length cs) >? max_objects (self s))%Z; [discriminate |].
  destruct (mapM to_object cs) as [objs|]; [|discriminate].
  now rewrite (proj2 (accepted_nil_iff (obj_set (self s1)) objs)
                 (Hseen objs eq_refl)).
Qed.

Lemma save_objects_again_witness :
  save_objects (Some batch_0_to_4) (at_time 2%Z store_after_first_batch)
  = (Return tt, at_time 2%Z store_after_first_batch).
Proof.
  apply (save_objects_again batch_0_to_4 (at_time 1%Z (test_store 1000 0))).
  apply returned_pair. vm_compute. reflexivity.
Defined.
